(** * autobackup-dcm: the backup cycle of [scripts/mysql_backup.py]

    A shallow embedding of the script's functions ([read_config],
    [save_last_backup_datetime], [rotate_backups], [upload_backup],
    [create_full_backup], [do_backup]) as computations in a small
    monad that threads the content of the configuration file, collects
    the externally visible events (log records, shell commands, uploads,
    rotations) and propagates Python exceptions.

    Everything the script obtains from outside (the clock, the outcome of
    shell commands, of the upload, of the rotation, of the file system) is
    read from an explicit environment, so every function below is a total,
    executable Rocq function. *)

From Stdlib Require Import ZArith List String Ascii Bool Arith Lia.
From Stdlib Require Import DecimalString DecimalNat.
Import ListNotations.
Local Open Scope string_scope.
Local Open Scope Z_scope.

(** ** Python values and exceptions *)

(** The values that the external calls hand back to the script: [execute]
    returns the captured output (a string) or [True]; [upload_file] a flag;
    a function that falls off its end returns [None]. *)
Inductive PyVal : Type :=
| PyNone
| PyBool (b : bool)
| PyStr (s : string).

(** Python truthiness, as used by [if cmd_result:] and [if backup_created:]. *)
Definition truthy (v : PyVal) : bool :=
  match v with
  | PyNone => false
  | PyBool b => b
  | PyStr s => negb (s =? "")%string
  end.

(** [ExternalCommandFailed] is the only exception class the script names;
    every other class ([OSError], [KeyError], ...) behaves alike. *)
Inductive Exn : Type :=
| ExternalCommandFailed (error_message : string)
| OtherException (class_name : string).

Inductive Outcome (A : Type) : Type :=
| Returns (a : A)
| Raises (e : Exn).
Arguments Returns {A} a.
Arguments Raises {A} e.

(** ** The configuration record of one app *)

Record AppCfg : Type := mkAppCfg {
  app_name : string;
  local_backup_dir : string;
  remote_backup_dir : string;
  google_credentials_name : string;
  google_authorized : string
}.

Record AppBk : Type := mkAppBk {
  last_year : Z;
  last_month : Z;
  last_week : Z;
  last_day : Z
}.

Record AppRotate : Type := mkAppRotate {
  rot_local : list (string * Z);
  rot_remote : list (string * Z);
  include_list : list string;
  exclude_list : list string;
  dry_run : bool;
  ionice : string
}.

Record AppCustom : Type := mkAppCustom {
  db_user : string;
  db_password : string;
  db_name : string
}.

(** [app['cfg']], [app['bk']], [app['rotate']], [app['custom']]. *)
Record App : Type := mkApp {
  app_cfg : AppCfg;
  app_bk : AppBk;
  app_rotate : AppRotate;
  app_custom : AppCustom
}.

(** The assignments [app['bk']['last_...'] = v]. *)
Definition set_last_year (v : Z) (app : App) : App :=
  let b := app_bk app in
  mkApp (app_cfg app) (mkAppBk v (last_month b) (last_week b) (last_day b))
        (app_rotate app) (app_custom app).

Definition set_last_month (v : Z) (app : App) : App :=
  let b := app_bk app in
  mkApp (app_cfg app) (mkAppBk (last_year b) v (last_week b) (last_day b))
        (app_rotate app) (app_custom app).

Definition set_last_week (v : Z) (app : App) : App :=
  let b := app_bk app in
  mkApp (app_cfg app) (mkAppBk (last_year b) (last_month b) v (last_day b))
        (app_rotate app) (app_custom app).

Definition set_last_day (v : Z) (app : App) : App :=
  let b := app_bk app in
  mkApp (app_cfg app) (mkAppBk (last_year b) (last_month b) (last_week b) v)
        (app_rotate app) (app_custom app).

(** ** Clock *)

(** What [do_backup] reads off [datetime.datetime.now()]:
    [now.year], [now.month], [now.isocalendar()[1]], [now.day]. *)
Record Now : Type := mkNow {
  current_year : Z;
  current_month : Z;
  current_week : Z;
  current_day : Z
}.

(** The fields of [time.localtime()] that ['%Y-%m-%d_%H-%M'] prints. *)
Record StructTime : Type := mkStructTime {
  tm_year : nat;
  tm_mon : nat;
  tm_mday : nat;
  tm_hour : nat;
  tm_min : nat
}.

Definition digit (n : nat) : ascii := ascii_of_nat (48 + n mod 10).
Arguments digit : simpl never.

(** [%m], [%d], [%H], [%M]: two digits, zero padded. *)
Definition pad2 (n : nat) : string :=
  String (digit (n / 10)) (String (digit n) EmptyString).

(** [%Y]: the year as a decimal number. *)
Definition year_str (y : nat) : string :=
  NilZero.string_of_uint (Nat.to_uint y).

(** [time.strftime('%Y-%m-%d_%H-%M')]. *)
Definition strftime (t : StructTime) : string :=
  year_str (tm_year t) ++ "-" ++ pad2 (tm_mon t) ++ "-" ++ pad2 (tm_mday t)
  ++ "_" ++ pad2 (tm_hour t) ++ "-" ++ pad2 (tm_min t).

(** ** Paths ([posixpath]) *)

Definition slash : ascii := "/"%char.

Fixpoint has_slash (s : string) : bool :=
  match s with
  | EmptyString => false
  | String c r => Ascii.eqb c slash || has_slash r
  end.


(** [p[:p.rfind('/') + 1]]: everything up to and including the last slash. *)
Fixpoint head_of (p : string) : string :=
  match p with
  | EmptyString => EmptyString
  | String c r =>
      if has_slash r then String c (head_of r)
      else if Ascii.eqb c slash then String c EmptyString else EmptyString
  end.

Fixpoint all_slashes (s : string) : bool :=
  match s with
  | EmptyString => true
  | String c r => Ascii.eqb c slash && all_slashes r
  end.

(** [s.rstrip('/')]. *)
Fixpoint rstrip_slash (s : string) : string :=
  match s with
  | EmptyString => EmptyString
  | String c r => if all_slashes r && Ascii.eqb c slash then EmptyString
                  else String c (rstrip_slash r)
  end.

(** [os.path.dirname]. *)
Definition dirname (p : string) : string :=
  let head := head_of p in
  if all_slashes head then head else rstrip_slash head.

(** ** Events and the environment *)

Inductive Level : Type := DEBUG | INFO | ERROR.

(** Modelled from the spec: [RotateBackupsCM.rotate_backups] lives in
    [rotate_dcm.py], which is not part of the sources at hand.  Following the
    contract of the rotator ([Rotate(namespace, policy) -> {deleted, kept,
    errors}]) a rotation always returns a report; failures of single
    deletions and an unreachable remote store are entries of [errors]. *)
Record RotateReport : Type := mkRotateReport {
  deleted : list string;
  kept : list string;
  errors : list string
}.

Inductive Event : Type :=
| EvLog (lvl : Level) (fmt : string) (args : list string)
| EvOpen (path : string) (mode : string)
| EvMakedirs (path : string)
| EvExecute (cmd : string) (input : option PyVal)
| EvUploadFile (credentials authorized remote_folder backup_file : string)
| EvRotateBackups (rotate_type : string) (rotation_scheme : list (string * Z))
    (incl excl : list string) (dry : bool) (io_scheduling_class : string)
    (directory : string) (report : RotateReport).

(** What the outside world answers while one app is processed. *)
Record AppOracle : Type := mkAppOracle {
  or_create_time : StructTime;        (* clock read by create_full_backup *)
  or_makedirs : option Exn;           (* os.makedirs: None when it returns *)
  or_mysqldump : Outcome PyVal;       (* execute(mysql_cmd, capture=True) *)
  or_gzip : Outcome PyVal;            (* execute(gzip_cmd, input=...) *)
  or_timer : string;                  (* str(timer) *)
  or_upload_file : Outcome PyVal;     (* GDriveCM(...).upload_file(...) *)
  or_rotate_local : RotateReport;
  or_rotate_remote : RotateReport;
  or_save_time : StructTime;          (* clock read by save_last_backup_datetime *)
  or_save_fault : option (nat * Exn)  (* the write fails after that many file operations *)
}.

Record Env : Type := mkEnv {
  env_format_path : string -> string;          (* humanfriendly.format_path *)
  env_json_load : string -> Outcome (list App); (* json.load on the file content *)
  env_json_chunks : list App -> list string;   (* the chunks json.dump writes *)
  env_now : Now;                               (* datetime.datetime.now() *)
  env_app : nat -> AppOracle                   (* indexed by position in the list *)
}.

(** ** The monad: configuration file content in, outcome, events and file content out *)

Definition M (A : Type) : Type := string -> Outcome A * list Event * string.

Definition ret {A} (a : A) : M A := fun file => (Returns a, [], file).

Definition raise {A} (e : Exn) : M A := fun file => (Raises e, [], file).

Definition bind {A B} (m : M A) (k : A -> M B) : M B :=
  fun file =>
    match m file with
    | (Returns a, evs, file1) =>
        match k a file1 with
        | (r, evs2, file2) => (r, (evs ++ evs2)%list, file2)
        end
    | (Raises e, evs, file1) => (Raises e, evs, file1)
    end.

(** [try: m  except <whatever the handler matches>: handler]. *)
Definition try_except {A} (m : M A) (handler : Exn -> M A) : M A :=
  fun file =>
    match m file with
    | (Returns a, evs, file1) => (Returns a, evs, file1)
    | (Raises e, evs, file1) =>
        match handler e file1 with
        | (r, evs2, file2) => (r, (evs ++ evs2)%list, file2)
        end
    end.

Definition emit (ev : Event) : M unit := fun file => (Returns tt, [ev], file).

Definition log (lvl : Level) (fmt : string) (args : list string) : M unit :=
  emit (EvLog lvl fmt args).

Definition of_outcome {A} (o : Outcome A) : M A :=
  match o with
  | Returns a => ret a
  | Raises e => raise e
  end.

Declare Scope py_scope.
Delimit Scope py_scope with py.
Notation "x <- c1 ;; c2" := (bind c1 (fun x => c2))
  (at level 61, c1 at next level, right associativity) : py_scope.
Notation "c1 ;; c2" := (bind c1 (fun _ => c2))
  (at level 61, right associativity) : py_scope.
Local Open Scope py_scope.

Definition result_of {A} (r : Outcome A * list Event * string) : Outcome A :=
  fst (fst r).
Definition events_of {A} (r : Outcome A * list Event * string) : list Event :=
  snd (fst r).
Definition file_of {A} (r : Outcome A * list Event * string) : string :=
  snd r.

(** ** The configuration file *)

Definition CONFIG_FILE : string := "../config/mysql_config.json".

(** What [open(CONFIG_FILE, 'w')] followed by [json.dump(cfg, f, ...)] does
    to the file, one operation at a time: opening for writing truncates the
    file, every chunk the encoder yields is appended, the [with] block closes
    the file. *)
Inductive FileOp : Type :=
| OpenW
| WriteChunk (chunk : string)
| CloseFile.

Definition file_op (op : FileOp) (content : string) : string :=
  match op with
  | OpenW => EmptyString
  | WriteChunk chunk => content ++ chunk
  | CloseFile => content
  end.

Definition run_ops (ops : list FileOp) (content : string) : string :=
  fold_left (fun c op => file_op op c) ops content.

Definition save_ops (chunks : list string) : list FileOp :=
  (OpenW :: map WriteChunk chunks ++ [CloseFile])%list.

(** The [with open(CONFIG_FILE, 'w') as f: json.dump(cfg, f, indent=2,
    sort_keys=False)] block.  When the environment injects a fault after [k]
    file operations, those [k] operations have taken effect and the
    exception leaves the block. *)
Definition write_config (env : Env) (o : AppOracle) (cfg : list App) : M unit :=
  fun file =>
    let ops := save_ops (env_json_chunks env cfg) in
    match or_save_fault o with
    | None => (Returns tt, [EvOpen CONFIG_FILE "w"], run_ops ops file)
    | Some (k, e) => (Raises e, [EvOpen CONFIG_FILE "w"], run_ops (firstn k ops) file)
    end.

(** [read_config]: [json.load] of the configuration file. *)
Definition read_config (env : Env) : M (list App) :=
  fun file => (env_json_load env file, [EvOpen CONFIG_FILE "r"], file).

(** [save_last_backup_datetime(app, cfg)]. *)
Definition save_last_backup_datetime (env : Env) (o : AppOracle)
    (app : App) (cfg : list App) : M unit :=
  log INFO "starting save_last_backup_datetime to '{}'" [app_name (app_cfg app)] ;;
  let filestamp := strftime (or_save_time o) in
  write_config env o cfg ;;
  log INFO "finish save_last_backup_datetime to '{}': {}"
      [app_name (app_cfg app); filestamp].

(** ** Rotation and upload *)

(** [rotate_backups(app)]: one rotation of the local directory, one of the
    remote folder. *)
Definition rotate_backups (o : AppOracle) (app : App) : M unit :=
  let c := app_cfg app in
  let r := app_rotate app in
  log INFO "starting rotate_backups to '{}'" [app_name c] ;;
  emit (EvRotateBackups "local" (rot_local r) (include_list r) (exclude_list r)
          (dry_run r) (ionice r) (local_backup_dir c) (or_rotate_local o)) ;;
  emit (EvRotateBackups "remote" (rot_remote r) (include_list r) (exclude_list r)
          (dry_run r) (ionice r) (remote_backup_dir c) (or_rotate_remote o)) ;;
  log INFO "finish rotate_backups to '{}'" [app_name c].

(** [GDriveCM(...).upload_file(backup_file)]. *)
Definition upload_file (o : AppOracle) (app : App) (backup_file : string) : M PyVal :=
  let c := app_cfg app in
  emit (EvUploadFile (google_credentials_name c) (google_authorized c)
          (remote_backup_dir c) backup_file) ;;
  of_outcome (or_upload_file o).

(** [upload_backup(app, backup_file)]; the bare [except:] catches
    everything. *)
Definition upload_backup (o : AppOracle) (app : App) (backup_file : string) : M PyVal :=
  log DEBUG "uploading %s" [backup_file] ;;
  try_except
    (res <- upload_file o app backup_file ;;
     (if truthy res
      then log INFO "uploaded %s" [backup_file]
      else log INFO "error uploading %s" [backup_file]) ;;
     ret res)
    (fun _ =>
       log ERROR "Error uploading %s" [backup_file] ;;
       ret (PyBool false)).

(** ** Creating a backup *)

Definition makedirs (o : AppOracle) (path : string) : M unit :=
  emit (EvMakedirs path) ;;
  match or_makedirs o with
  | None => ret tt
  | Some e => raise e
  end.

(** [execute(cmd, ...)] of the [executor] package. *)
Definition execute (cmd : string) (input : option PyVal) (answer : Outcome PyVal) : M PyVal :=
  emit (EvExecute cmd input) ;;
  of_outcome answer.

(** ['{}{}_{}_{}.{}'.format(local_backup_dir, app_name, filestamp,
    backup_type, 'gz')]. *)
Definition backup_file_of (app : App) (filestamp backup_type : string) : string :=
  local_backup_dir (app_cfg app) ++ app_name (app_cfg app) ++ "_" ++ filestamp
  ++ "_" ++ backup_type ++ "." ++ "gz".

Definition mysql_cmd_of (app : App) : string :=
  "/opt/lamp/mysql/bin/mysqldump "
  ++ "--opt --triggers --events --user=" ++ db_user (app_custom app)
  ++ " --password=" ++ db_password (app_custom app)
  ++ " --databases " ++ db_name (app_custom app).

Definition gzip_cmd_of (env : Env) (backup_file : string) : string :=
  "gzip -c > " ++ env_format_path env backup_file.

(** [create_full_backup(app, backup_type)].  The [except] clause names
    [ExternalCommandFailed] only and has no [return]: the function then
    returns [None]; any other exception leaves the function. *)
Definition create_full_backup (env : Env) (o : AppOracle) (app : App)
    (backup_type : string) : M PyVal :=
  let name := app_name (app_cfg app) in
  log INFO "starting full backup_{} to '{}'" [backup_type; name] ;;
  let filestamp := strftime (or_create_time o) in
  let backup_file := backup_file_of app filestamp backup_type in
  try_except
    (makedirs o (dirname backup_file) ;;
     let mysql_cmd := mysql_cmd_of app in
     let gzip_cmd := gzip_cmd_of env backup_file in
     mysql_cmd_res <- execute mysql_cmd None (or_mysqldump o) ;;
     cmd_result <- execute gzip_cmd (Some mysql_cmd_res) (or_gzip o) ;;
     if truthy cmd_result
     then
       log INFO "finish full backup_{} to '{}:{} in {}'"
           [backup_type; name; env_format_path env backup_file; or_timer o] ;;
       upload_backup o app backup_file
     else
       log ERROR "error creating full backup_{} to '{}'" [backup_type; name] ;;
       ret cmd_result)
    (fun ex =>
       match ex with
       | ExternalCommandFailed error_message =>
           log ERROR "error creating full backup_{} to '{} :{}'"
               [backup_type; name; error_message] ;;
           ret PyNone
       | OtherException _ => raise ex
       end).

(** ** The backup cycle *)

(** Lines 141-174 of [do_backup]: the [if]/[elif] chain over the four
    calendar units.  Returns the app as the assignments left it, and the
    local flag [rotate]. *)
Definition select_and_create (env : Env) (o : AppOracle) (now : Now) (app : App)
    : M (App * bool) :=
  if current_year now >? last_year (app_bk app) then
    backup_created <- create_full_backup env o app "yearly" ;;
    if truthy backup_created then
      ret (set_last_day (current_day now)
            (set_last_week (current_week now)
              (set_last_month (current_month now)
                (set_last_year (current_year now) app))), true)
    else ret (app, false)
  else if current_month now >? last_month (app_bk app) then
    backup_created <- create_full_backup env o app "monthly" ;;
    if truthy backup_created then
      ret (set_last_day (current_day now)
            (set_last_week (current_week now)
              (set_last_month (current_month now) app)), true)
    else ret (app, false)
  else if current_week now >? last_week (app_bk app) then
    backup_created <- create_full_backup env o app "weekly" ;;
    if truthy backup_created then
      ret (set_last_day (current_day now)
            (set_last_week (current_week now) app), true)
    else ret (app, false)
  else if current_day now >? last_day (app_bk app) then
    backup_created <- create_full_backup env o app "daily" ;;
    if truthy backup_created then
      ret (set_last_day (current_day now) app, true)
    else ret (app, false)
  else ret (app, false).

(** Lines 176-184 of [do_backup]: rotation and saving when [rotate] is set.
    [app] is the element of the list at position [length done]; the
    dictionary was mutated in place, so the list that
    [save_last_backup_datetime] writes is the list with the mutated app at
    that position. *)
Definition rotate_and_save (env : Env) (o : AppOracle) (done : list App)
    (app : App) (rotate : bool) (rest : list App) : M App :=
  (if rotate then
     rotate_backups o app ;;
     save_last_backup_datetime env o app (done ++ app :: rest)%list
   else
     log INFO "No rotate all backups to '{}' up to date" [app_name (app_cfg app)]) ;;
  log INFO "end backups to '{}'" [app_name (app_cfg app)] ;;
  ret app.

(** One iteration of [for app in cfg:]. *)
Definition do_backup_app (env : Env) (now : Now) (done : list App) (app : App)
    (rest : list App) : M App :=
  let o := env_app env (List.length done) in
  sel <- select_and_create env o now app ;;
  rotate_and_save env o done (fst sel) (snd sel) rest.

Fixpoint do_backup_loop (env : Env) (now : Now) (done todo : list App)
    : M (list App) :=
  match todo with
  | [] => ret done
  | app :: rest =>
      app1 <- do_backup_app env now done app rest ;;
      do_backup_loop env now (done ++ [app1])%list rest
  end.

(** [do_backup()]. *)
Definition do_backup (env : Env) : M (list App) :=
  log INFO "starting all backups" [] ;;
  cfg <- read_config env ;;
  let now := env_now env in
  cfg1 <- do_backup_loop env now [] cfg ;;
  log INFO "end all backups" [] ;;
  ret cfg1.

(** ** Observations on a trace *)

(** The backup type a log record of the entry of [create_full_backup]
    carries: every call of the function writes exactly this record first. *)
Definition attempt_of (ev : Event) : option string :=
  match ev with
  | EvLog INFO fmt (backup_type :: _ :: nil) =>
      if (fmt =? "starting full backup_{} to '{}'")%string
      then Some backup_type else None
  | _ => None
  end.

Fixpoint attempts (evs : list Event) : list string :=
  match evs with
  | [] => []
  | ev :: r =>
      match attempt_of ev with
      | Some t => t :: attempts r
      | None => attempts r
      end
  end.

Definition is_rotation (ev : Event) : bool :=
  match ev with
  | EvRotateBackups _ _ _ _ _ _ _ _ => true
  | _ => false
  end.

(** The calls of [RotateBackupsCM(...).rotate_backups(...)]. *)
Definition rotations (evs : list Event) : list Event := filter is_rotation evs.

(** Whether a log record names the app (every record of an iteration does). *)
Definition names_app (name : string) (ev : Event) : bool :=
  match ev with
  | EvLog _ _ args => existsb (String.eqb name) args
  | _ => false
  end.

(** ** The tiers and their conditions *)

Inductive Tier : Type := yearly | monthly | weekly | daily.

Definition tier_name (t : Tier) : string :=
  match t with
  | yearly => "yearly"
  | monthly => "monthly"
  | weekly => "weekly"
  | daily => "daily"
  end.

(** Priority: [yearly] first. *)
Definition rank (t : Tier) : nat :=
  match t with
  | yearly => 0
  | monthly => 1
  | weekly => 2
  | daily => 3
  end.

(** The condition of each branch of the chain, taken on its own. *)
Definition tier_due (t : Tier) (now : Now) (b : AppBk) : bool :=
  match t with
  | yearly => current_year now >? last_year b
  | monthly => current_month now >? last_month b
  | weekly => current_week now >? last_week b
  | daily => current_day now >? last_day b
  end.

(** ** What the oracle says about one app *)

(** The directory exists, the dump and the compression return, and the
    compression reports success. *)
Definition creation_succeeds (o : AppOracle) : bool :=
  match or_makedirs o, or_mysqldump o, or_gzip o with
  | None, Returns _, Returns g => truthy g
  | _, _, _ => false
  end.

Definition upload_succeeds (o : AppOracle) : bool :=
  match or_upload_file o with
  | Returns u => truthy u
  | Raises _ => false
  end.

(** The dump or the compression raises [ExternalCommandFailed] with the
    given message. *)
Definition command_raises (o : AppOracle) (msg : string) : Prop :=
  or_makedirs o = None /\
  (or_mysqldump o = Raises (ExternalCommandFailed msg) \/
   (exists d, or_mysqldump o = Returns d) /\
   or_gzip o = Raises (ExternalCommandFailed msg)).

(** No exception can leave the iteration: whatever is raised while the
    artifact is created is an [ExternalCommandFailed], and the
    configuration file can be written. *)
Definition exn_caught (e : Exn) : bool :=
  match e with
  | ExternalCommandFailed _ => true
  | OtherException _ => false
  end.

Definition no_uncaught (o : AppOracle) : bool :=
  match or_makedirs o with None => true | Some e => exn_caught e end
  && match or_mysqldump o with Returns _ => true | Raises e => exn_caught e end
  && match or_gzip o with Returns _ => true | Raises e => exn_caught e end
  && match or_save_fault o with None => true | Some _ => false end.

(** ** The cycle in tabular form

    The definitions below say in closed form what the functions above
    compute; the lemmas [create_full_backup_result] and
    [select_and_create_selected] prove that they agree with the code. *)

(** What [create_full_backup] returns or raises, read off the oracle. *)
Definition create_outcome (o : AppOracle) : Outcome PyVal :=
  match or_makedirs o with
  | Some (ExternalCommandFailed _) => Returns PyNone
  | Some e => Raises e
  | None =>
      match or_mysqldump o with
      | Raises (ExternalCommandFailed _) => Returns PyNone
      | Raises e => Raises e
      | Returns _ =>
          match or_gzip o with
          | Raises (ExternalCommandFailed _) => Returns PyNone
          | Raises e => Raises e
          | Returns g =>
              if truthy g then
                match or_upload_file o with
                | Returns u => Returns u
                | Raises _ => Returns (PyBool false)
                end
              else Returns g
          end
      end
  end.

(** The first tier, in priority order, whose condition holds. *)
Definition selected (now : Now) (b : AppBk) : option Tier :=
  if tier_due yearly now b then Some yearly
  else if tier_due monthly now b then Some monthly
  else if tier_due weekly now b then Some weekly
  else if tier_due daily now b then Some daily
  else None.

(** The assignments of the branch of a tier. *)
Definition advance (t : Tier) (now : Now) (app : App) : App :=
  match t with
  | yearly =>
      set_last_day (current_day now)
        (set_last_week (current_week now)
          (set_last_month (current_month now)
            (set_last_year (current_year now) app)))
  | monthly =>
      set_last_day (current_day now)
        (set_last_week (current_week now)
          (set_last_month (current_month now) app))
  | weekly =>
      set_last_day (current_day now) (set_last_week (current_week now) app)
  | daily => set_last_day (current_day now) app
  end.

(** The dump or the compression fails: it raises [ExternalCommandFailed],
    or the compression returns a false value. *)
Definition command_fails (o : AppOracle) : bool :=
  match or_makedirs o with
  | Some _ => false
  | None =>
      match or_mysqldump o with
      | Raises e => exn_caught e
      | Returns _ =>
          match or_gzip o with
          | Raises e => exn_caught e
          | Returns g => negb (truthy g)
          end
      end
  end.

Definition is_config_write (ev : Event) : bool :=
  match ev with
  | EvOpen _ mode => (mode =? "w")%string
  | _ => false
  end.

(** The times the configuration file was opened for writing. *)
Definition config_writes (evs : list Event) : list Event :=
  filter is_config_write evs.

(** ** Sample data *)

Definition t_0917 : StructTime := mkStructTime 2024 6 15 9 17.

Definition jom : App :=
  mkApp (mkAppCfg "jom" "/var/backups/jom/" "jom_remote" "cred.json" "auth.json")
        (mkAppBk 2023 5 20 14)
        (mkAppRotate [("daily", 7); ("weekly", 4)] [("daily", 3)] ["*.gz"] [] false "idle")
        (mkAppCustom "root" "secret" "jomdb").

Definition wiki : App :=
  mkApp (mkAppCfg "wiki" "/var/backups/wiki/" "wiki_remote" "cred.json" "auth.json")
        (mkAppBk 2024 6 24 14)
        (mkAppRotate [("daily", 7)] [("daily", 3)] ["*.gz"] [] false "idle")
        (mkAppCustom "root" "secret" "wikidb").

Definition no_report : RotateReport := mkRotateReport [] [] [].

(** Everything works. *)
Definition oracle_ok : AppOracle :=
  mkAppOracle t_0917 None (Returns (PyStr "-- dump")) (Returns (PyBool true))
    "1.5 seconds" (Returns (PyBool true)) no_report no_report t_0917 None.

(** The artifact is created, the upload reports failure. *)
Definition oracle_upload_fails : AppOracle :=
  mkAppOracle t_0917 None (Returns (PyStr "-- dump")) (Returns (PyBool true))
    "1.5 seconds" (Returns (PyBool false)) no_report no_report t_0917 None.

(** The dump command fails. *)
Definition oracle_dump_fails : AppOracle :=
  mkAppOracle t_0917 None (Raises (ExternalCommandFailed "exit 2")) (Returns (PyBool true))
    "1.5 seconds" (Returns (PyBool true)) no_report no_report t_0917 None.

(** Writing the configuration file fails after [k] file operations. *)
Definition oracle_save_fails (k : nat) : AppOracle :=
  mkAppOracle t_0917 None (Returns (PyStr "-- dump")) (Returns (PyBool true))
    "1.5 seconds" (Returns (PyBool true)) no_report no_report t_0917
    (Some (k, OtherException "OSError")).

(** A stand-in for the chunks of the JSON encoder: the brackets and, per
    app, its name. *)
Definition name_chunks (cfg : list App) : list string :=
  ("[" :: map (fun a => app_name (app_cfg a)) cfg ++ ["]"])%list.

Definition june_2024 : Now := mkNow 2024 6 24 15.

Definition sample_env (cfg : list App) (oracle : nat -> AppOracle) : Env :=
  mkEnv (fun p => p) (fun _ => Returns cfg) name_chunks june_2024 oracle.

(** The directory of the artifact cannot be created. *)
Definition oracle_makedirs_fails : AppOracle :=
  mkAppOracle t_0917 (Some (OtherException "PermissionError"))
    (Returns (PyStr "-- dump")) (Returns (PyBool true))
    "1.5 seconds" (Returns (PyBool true)) no_report no_report t_0917 None.

(** The content of a file into which the chunks were written in turn. *)
Definition join (chunks : list string) : string :=
  fold_right String.append EmptyString chunks.

(** ** Reading an artifact name *)


(** The ranges of the fields of a [struct_time] whose year has four
    digits. *)
Definition valid_time (t : StructTime) : Prop :=
  (1000 <= tm_year t < 10 * 1000 /\ 1 <= tm_mon t <= 12 /\ 1 <= tm_mday t <= 31
   /\ tm_hour t <= 23 /\ tm_min t <= 59)%nat.

Definition digit_value (c : ascii) : option nat :=
  let n := nat_of_ascii c in
  if ((48 <=? n) && (n <=? 57))%nat then Some (n - 48)%nat else None.

(** The number a string of decimal digits denotes. *)
Fixpoint read_number (s : string) (acc : nat) : option nat :=
  match s with
  | EmptyString => Some acc
  | String c r =>
      match digit_value c with
      | Some d => read_number r (10 * acc + d)%nat
      | None => None
      end
  end.

(** Reads a stamp of the form [YYYY-MM-DD_HH-MM]: sixteen characters, four
    digits, a dash, two digits, a dash, two digits, an underscore, two
    digits, a dash, two digits. *)
Definition read_stamp (s : string) : option StructTime :=
  if ((String.length s =? 16)%nat
      && (substring 4 1 s =? "-")%string && (substring 7 1 s =? "-")%string
      && (substring 10 1 s =? "_")%string && (substring 13 1 s =? "-")%string)%bool
  then
    match read_number (substring 0 4 s) 0, read_number (substring 5 2 s) 0,
          read_number (substring 8 2 s) 0, read_number (substring 11 2 s) 0,
          read_number (substring 14 2 s) 0 with
    | Some y, Some m, Some d, Some h, Some mi => Some (mkStructTime y m d h mi)
    | _, _, _, _, _ => None
    end
  else None.

(** Four decimal digits. *)
Definition dec4 (n : nat) : string :=
  String (digit (n / 1000)) (String (digit (n / 100)) (pad2 n)).

(** The decimal numeral that starts with the digit [k]. *)
Definition dig (k : nat) (r : Decimal.uint) : Decimal.uint :=
  match k with
  | 0 => Decimal.D0 r
  | 1 => Decimal.D1 r
  | 2 => Decimal.D2 r
  | 3 => Decimal.D3 r
  | 4 => Decimal.D4 r
  | 5 => Decimal.D5 r
  | 6 => Decimal.D6 r
  | 7 => Decimal.D7 r
  | 8 => Decimal.D8 r
  | _ => Decimal.D9 r
  end%nat.

Definition is_execute (ev : Event) : bool :=
  match ev with
  | EvExecute _ _ => true
  | _ => false
  end.

(** The shell commands of a trace. *)
Definition commands (evs : list Event) : list Event := filter is_execute evs.


(** ** Further observations *)

Definition is_upload (ev : Event) : bool :=
  match ev with
  | EvUploadFile _ _ _ _ => true
  | _ => false
  end.

(** The calls of [GDriveCM(...).upload_file(...)]. *)
Definition uploads (evs : list Event) : list Event := filter is_upload evs.

(** The first of the directory creation, the dump and the compression that
    does not return raises an exception of a class other than
    [ExternalCommandFailed]. *)
Definition raises_other (o : AppOracle) (class_name : string) : Prop :=
  or_makedirs o = Some (OtherException class_name)
  \/ (or_makedirs o = None /\
      or_mysqldump o = Raises (OtherException class_name))
  \/ (or_makedirs o = None /\ (exists d, or_mysqldump o = Returns d) /\
      or_gzip o = Raises (OtherException class_name)).


(** Nothing is due for the app: the four comparisons of the chain fail. *)
Definition up_to_date (now : Now) (app : App) : Prop :=
  forall t, tier_due t now (app_bk app) = false.

(** What an iteration may do to an app: the sections [cfg], [rotate] and
    [custom] stay, every timestamp keeps its value or takes the value of
    [now], and the stored year does not go back. *)
Definition only_bk_moved (now : Now) (a a1 : App) : Prop :=
  app_cfg a1 = app_cfg a
  /\ app_rotate a1 = app_rotate a
  /\ app_custom a1 = app_custom a
  /\ (last_year (app_bk a1) = last_year (app_bk a)
      \/ last_year (app_bk a1) = current_year now)
  /\ (last_month (app_bk a1) = last_month (app_bk a)
      \/ last_month (app_bk a1) = current_month now)
  /\ (last_week (app_bk a1) = last_week (app_bk a)
      \/ last_week (app_bk a1) = current_week now)
  /\ (last_day (app_bk a1) = last_day (app_bk a)
      \/ last_day (app_bk a1) = current_day now)
  /\ last_year (app_bk a) <= last_year (app_bk a1).

(** The tiers that are due for the apps of a list, in the order of the list. *)
Definition due_tiers (now : Now) (cfg : list App) : list string :=
  flat_map (fun a => match selected now (app_bk a) with
                     | Some t => [tier_name t]
                     | None => []
                     end) cfg.

(** The records an iteration writes for an app that is up to date. *)
Definition up_to_date_records (cfg : list App) : list Event :=
  flat_map (fun a =>
              [EvLog INFO "No rotate all backups to '{}' up to date"
                 [app_name (app_cfg a)];
               EvLog INFO "end backups to '{}'" [app_name (app_cfg a)]]) cfg.

(** The backup of the app is created and uploaded. *)
Definition backup_succeeds (o : AppOracle) : bool :=
  creation_succeeds o && upload_succeeds o.

(** ** The incremental stub *)

(** [create_incremental_backup(app, backup_type)]: the place of the
    incremental backup itself is a comment in the source; the function falls
    off its end and so returns [None]. *)
Definition create_incremental_backup (o : AppOracle) (app : App)
    (backup_type : string) : M PyVal :=
  let name := app_name (app_cfg app) in
  log INFO "starting incremental backup_{} to '{}'" [backup_type; name] ;;
  let filestamp := strftime (or_create_time o) in
  let backup_file := backup_file_of app filestamp backup_type in
  upload_backup o app backup_file ;;
  log INFO "finish incremental backup_{} to '{}:{}'" [backup_type; name; backup_file] ;;
  ret PyNone.

Definition is_makedirs (ev : Event) : bool :=
  match ev with
  | EvMakedirs _ => true
  | _ => false
  end.

(** ** Order of creation times *)

(** Lexicographic combination of two comparisons. *)
Definition lex (c1 c2 : comparison) : comparison :=
  match c1 with
  | Eq => c2
  | _ => c1
  end.

(** Comparison of two times to the minute: year first, then month, day,
    hour and minute. *)
Definition time_compare (t1 t2 : StructTime) : comparison :=
  lex (Nat.compare (tm_year t1) (tm_year t2))
    (lex (Nat.compare (tm_mon t1) (tm_mon t2))
       (lex (Nat.compare (tm_mday t1) (tm_mday t2))
          (lex (Nat.compare (tm_hour t1) (tm_hour t2))
             (Nat.compare (tm_min t1) (tm_min t2))))).

Definition t_0918 : StructTime := mkStructTime 2024 6 15 9 18.

(** ** Basic facts *)

Lemma attempts_app (l1 l2 : list Event) :
  attempts (l1 ++ l2) = (attempts l1 ++ attempts l2)%list.
Proof.
  induction l1 as [|ev l1 IH]; simpl; [reflexivity|].
  destruct (attempt_of ev); simpl; now rewrite IH.
Qed.

Lemma rotations_app (l1 l2 : list Event) :
  rotations (l1 ++ l2) = (rotations l1 ++ rotations l2)%list.
Proof. unfold rotations. apply filter_app. Qed.

(** Reading a run of [bind] off the run of its first half. *)
Lemma bind_returns {A B} (m : M A) (k : A -> M B) (file : string) a evs file1 :
  m file = (Returns a, evs, file1) ->
  bind m k file =
    (result_of (k a file1), (evs ++ events_of (k a file1))%list, file_of (k a file1)).
Proof.
  intros H. unfold bind. rewrite H.
  destruct (k a file1) as [[r evs2] file2]. reflexivity.
Qed.

Lemma bind_raises {A B} (m : M A) (k : A -> M B) (file : string) e evs file1 :
  m file = (Raises e, evs, file1) ->
  bind m k file = (Raises e, evs, file1).
Proof. intros H. unfold bind. now rewrite H. Qed.

Lemma result_of_mk {A} (r : Outcome A) (evs : list Event) (f : string) :
  result_of (r, evs, f) = r.
Proof. reflexivity. Qed.

Lemma events_of_mk {A} (r : Outcome A) (evs : list Event) (f : string) :
  events_of (r, evs, f) = evs.
Proof. reflexivity. Qed.

Lemma file_of_mk {A} (r : Outcome A) (evs : list Event) (f : string) :
  file_of (r, evs, f) = f.
Proof. reflexivity. Qed.

Lemma config_writes_app (l1 l2 : list Event) :
  config_writes (l1 ++ l2) = (config_writes l1 ++ config_writes l2)%list.
Proof. unfold config_writes. apply filter_app. Qed.

Ltac run_mk := rewrite ?result_of_mk, ?events_of_mk, ?file_of_mk.

Lemma run_eta {A} (r : Outcome A * list Event * string) :
  r = (result_of r, events_of r, file_of r).
Proof. destruct r as [[? ?] ?]. reflexivity. Qed.

(** ** [create_full_backup] *)

Ltac unfold_create :=
  unfold create_full_backup, upload_backup, upload_file, makedirs, execute,
    of_outcome, try_except, bind, log, emit, ret, raise,
    result_of, events_of, file_of.

Ltac oracle_cases o :=
  destruct (or_makedirs o) as [[?|?]|];
  [ | | destruct (or_mysqldump o) as [?|[?|?]];
        [ destruct (or_gzip o) as [?g|[?|?]];
          [ destruct (truthy g) eqn:?;
            [ destruct (or_upload_file o) as [?u|?];
              [ destruct (truthy u) eqn:? | ] | ] | | ] | | ] ].

Ltac solve_create o :=
  unfold_create;
  oracle_cases o; simpl; try reflexivity;
    repeat match goal with H : truthy _ = _ |- _ => rewrite H end;
    simpl; try reflexivity;
    repeat match goal with H : truthy _ = _ |- _ => rewrite H end;
    reflexivity.

Lemma create_full_backup_result env o app t file :
  result_of (create_full_backup env o app t file) = create_outcome o.
Proof. unfold create_outcome. solve_create o. Qed.

Lemma create_full_backup_file env o app t file :
  file_of (create_full_backup env o app t file) = file.
Proof. solve_create o. Qed.

Lemma create_full_backup_attempts env o app t file :
  attempts (events_of (create_full_backup env o app t file)) = [t].
Proof. solve_create o. Qed.

Lemma create_full_backup_rotations env o app t file :
  rotations (events_of (create_full_backup env o app t file)) = [].
Proof. solve_create o. Qed.

(** ** The chain of [do_backup] *)

Lemma select_and_create_selected env o now app file :
  select_and_create env o now app file =
  match selected now (app_bk app) with
  | None => (Returns (app, false), [], file)
  | Some t =>
      bind (create_full_backup env o app (tier_name t))
           (fun bc => if truthy bc then ret (advance t now app, true)
                      else ret (app, false)) file
  end.
Proof.
  unfold select_and_create, selected, tier_due.
  destruct (current_year now >? last_year (app_bk app)); [reflexivity|].
  destruct (current_month now >? last_month (app_bk app)); [reflexivity|].
  destruct (current_week now >? last_week (app_bk app)); [reflexivity|].
  destruct (current_day now >? last_day (app_bk app)); reflexivity.
Qed.

(** The run of the chain once a tier is selected. *)
Lemma select_and_create_due env o now app file t :
  selected now (app_bk app) = Some t ->
  select_and_create env o now app file =
  (match create_outcome o with
   | Returns bc => Returns (if truthy bc then (advance t now app, true)
                            else (app, false))
   | Raises e => Raises e
   end,
   events_of (create_full_backup env o app (tier_name t) file),
   file).
Proof.
  intros Hs. rewrite select_and_create_selected, Hs.
  pose proof (create_full_backup_result env o app (tier_name t) file) as Hr.
  pose proof (create_full_backup_file env o app (tier_name t) file) as Hf.
  destruct (create_full_backup env o app (tier_name t) file) as [[r evs] f1] eqn:E.
  unfold result_of, events_of, file_of in *. simpl in Hr, Hf. subst r f1.
  unfold bind. rewrite E.
  destruct (create_outcome o) as [bc|e]; [|reflexivity].
  destruct (truthy bc); unfold ret; simpl; now rewrite app_nil_r.
Qed.

Lemma select_and_create_none env o now app file :
  selected now (app_bk app) = None ->
  select_and_create env o now app file = (Returns (app, false), [], file).
Proof. intros Hs. now rewrite select_and_create_selected, Hs. Qed.

(** ** Rotation and saving *)

Ltac unfold_tail :=
  unfold rotate_and_save, rotate_backups, save_last_backup_datetime, write_config,
    bind, log, emit, ret, raise, result_of, events_of, file_of.

Lemma rotate_and_save_attempts env o done app rotate rest file :
  attempts (events_of (rotate_and_save env o done app rotate rest file)) = [].
Proof.
  unfold_tail. destruct rotate; simpl; [|reflexivity].
  destruct (or_save_fault o) as [[k e]|]; reflexivity.
Qed.

Lemma rotate_and_save_skip env o done app rest file :
  rotate_and_save env o done app false rest file =
  (Returns app,
   [EvLog INFO "No rotate all backups to '{}' up to date" [app_name (app_cfg app)];
    EvLog INFO "end backups to '{}'" [app_name (app_cfg app)]],
   file).
Proof. reflexivity. Qed.

Lemma rotate_and_save_rotations env o done app rest file :
  rotations (events_of (rotate_and_save env o done app true rest file)) =
  [EvRotateBackups "local" (rot_local (app_rotate app))
     (include_list (app_rotate app)) (exclude_list (app_rotate app))
     (dry_run (app_rotate app)) (ionice (app_rotate app))
     (local_backup_dir (app_cfg app)) (or_rotate_local o);
   EvRotateBackups "remote" (rot_remote (app_rotate app))
     (include_list (app_rotate app)) (exclude_list (app_rotate app))
     (dry_run (app_rotate app)) (ionice (app_rotate app))
     (remote_backup_dir (app_cfg app)) (or_rotate_remote o)].
Proof.
  unfold_tail. simpl.
  destruct (or_save_fault o) as [[k e]|]; reflexivity.
Qed.

(** A completed save leaves the serialisation of the whole list in the file. *)
Lemma rotate_and_save_saved env o done app rest file :
  or_save_fault o = None ->
  result_of (rotate_and_save env o done app true rest file) = Returns app /\
  file_of (rotate_and_save env o done app true rest file) =
    run_ops (save_ops (env_json_chunks env (done ++ app :: rest))) file.
Proof.
  intros Hs. unfold_tail. simpl. rewrite Hs. simpl. split; reflexivity.
Qed.

(** ** One iteration *)

Lemma do_backup_app_attempts env now done app rest file :
  attempts (events_of (do_backup_app env now done app rest file)) =
  match selected now (app_bk app) with
  | None => []
  | Some t => [tier_name t]
  end.
Proof.
  unfold do_backup_app.
  set (o := env_app env (List.length done)).
  destruct (selected now (app_bk app)) as [t|] eqn:Hs.
  - pose proof (select_and_create_due env o now app file t Hs) as E.
    destruct (create_outcome o) as [bc|e].
    + rewrite (bind_returns _ _ _ _ _ _ E). unfold events_of at 1. simpl.
      rewrite attempts_app, create_full_backup_attempts, rotate_and_save_attempts.
      reflexivity.
    + rewrite (bind_raises _ _ _ _ _ _ E). unfold events_of at 1. simpl.
      apply create_full_backup_attempts.
  - pose proof (select_and_create_none env o now app file Hs) as E.
    rewrite (bind_returns _ _ _ _ _ _ E). reflexivity.
Qed.

Lemma do_backup_app_none env now done app rest file :
  selected now (app_bk app) = None ->
  do_backup_app env now done app rest file =
  (Returns app,
   [EvLog INFO "No rotate all backups to '{}' up to date" [app_name (app_cfg app)];
    EvLog INFO "end backups to '{}'" [app_name (app_cfg app)]],
   file).
Proof.
  intros Hs. unfold do_backup_app.
  rewrite (bind_returns _ _ _ _ _ _ (select_and_create_none env _ now app file Hs)).
  reflexivity.
Qed.

(** The iteration when the backup is not reported created. *)
Lemma do_backup_app_not_created env now done app rest file t bc :
  selected now (app_bk app) = Some t ->
  create_outcome (env_app env (List.length done)) = Returns bc ->
  truthy bc = false ->
  do_backup_app env now done app rest file =
  (Returns app,
   (events_of (create_full_backup env (env_app env (List.length done)) app
                 (tier_name t) file) ++
    [EvLog INFO "No rotate all backups to '{}' up to date" [app_name (app_cfg app)];
     EvLog INFO "end backups to '{}'" [app_name (app_cfg app)]])%list,
   file).
Proof.
  intros Hs Hc Ht. unfold do_backup_app.
  pose proof (select_and_create_due env (env_app env (List.length done)) now app file t Hs) as E.
  rewrite Hc, Ht in E.
  rewrite (bind_returns _ _ _ _ _ _ E). reflexivity.
Qed.

(** The iteration when the backup is reported created. *)
Lemma do_backup_app_created env now done app rest file t bc :
  selected now (app_bk app) = Some t ->
  create_outcome (env_app env (List.length done)) = Returns bc ->
  truthy bc = true ->
  do_backup_app env now done app rest file =
  let o := env_app env (List.length done) in
  let tail := rotate_and_save env o done (advance t now app) true rest file in
  (result_of tail,
   (events_of (create_full_backup env o app (tier_name t) file) ++ events_of tail)%list,
   file_of tail).
Proof.
  intros Hs Hc Ht. unfold do_backup_app.
  pose proof (select_and_create_due env (env_app env (List.length done)) now app file t Hs) as E.
  rewrite Hc, Ht in E.
  rewrite (bind_returns _ _ _ _ _ _ E). reflexivity.
Qed.

(** ** The tiers *)

Lemma selected_some now b t :
  selected now b = Some t <->
  tier_due t now b = true /\
  (forall t', (rank t' < rank t)%nat -> tier_due t' now b = false).
Proof.
  unfold selected. split.
  - intros H.
    destruct (tier_due yearly now b) eqn:Hy;
      [injection H as <-; split; [exact Hy | intros [] Hr; simpl in Hr; lia]|].
    destruct (tier_due monthly now b) eqn:Hm;
      [injection H as <-; split; [exact Hm | intros [] Hr; simpl in Hr; (lia || assumption)]|].
    destruct (tier_due weekly now b) eqn:Hw;
      [injection H as <-; split; [exact Hw | intros [] Hr; simpl in Hr; (lia || assumption)]|].
    destruct (tier_due daily now b) eqn:Hd;
      [injection H as <-; split; [exact Hd | intros [] Hr; simpl in Hr; (lia || assumption)]|].
    discriminate.
  - intros [Hd Hh].
    destruct t;
      repeat match goal with
      | |- context [tier_due ?u now b] =>
          first [ rewrite Hd | rewrite (Hh u) by (simpl; lia) ]
      end; reflexivity.
Qed.

Lemma selected_none now b :
  selected now b = None <-> forall t, tier_due t now b = false.
Proof.
  unfold selected. split.
  - intros H [];
      destruct (tier_due yearly now b); try discriminate;
      destruct (tier_due monthly now b); try discriminate;
      destruct (tier_due weekly now b); try discriminate;
      destruct (tier_due daily now b); try discriminate; reflexivity.
  - intros H. now rewrite !H.
Qed.

Lemma gtb_irrefl (x : Z) : (x >? x) = false.
Proof. rewrite Z.gtb_ltb. apply Z.ltb_irrefl. Qed.

(** After the assignments of the selected tier nothing is due any more. *)
Lemma selected_advance now app t :
  selected now (app_bk app) = Some t ->
  selected now (app_bk (advance t now app)) = None.
Proof.
  intros H. apply selected_some in H. destruct H as [_ Hh].
  apply selected_none. intros u.
  destruct t, u; simpl; try apply gtb_irrefl;
    match goal with
    | |- (current_year _ >? _) = false => apply (Hh yearly); simpl; lia
    | |- (current_month _ >? _) = false => apply (Hh monthly); simpl; lia
    | |- (current_week _ >? _) = false => apply (Hh weekly); simpl; lia
    end.
Qed.

(** ** Failures while the artifact is created *)

Lemma command_fails_outcome o :
  command_fails o = true ->
  exists bc, create_outcome o = Returns bc /\ truthy bc = false.
Proof.
  unfold command_fails, create_outcome.
  destruct (or_makedirs o) as [e|]; [discriminate|].
  destruct (or_mysqldump o) as [d|[m|c]]; try discriminate.
  - destruct (or_gzip o) as [g|[m|c]]; try discriminate.
    + intros Hg. apply negb_true_iff in Hg. rewrite Hg. now exists g.
    + intros _. now exists PyNone.
  - intros _. now exists PyNone.
Qed.

Lemma command_raises_outcome o msg :
  command_raises o msg -> create_outcome o = Returns PyNone.
Proof.
  unfold command_raises, create_outcome.
  intros [Hm [Hd|[[d Hd] Hg]]]; rewrite Hm, Hd; [reflexivity|].
  now rewrite Hg.
Qed.

Lemma command_raises_logged env o app t file msg :
  command_raises o msg ->
  In (EvLog ERROR "error creating full backup_{} to '{} :{}'"
        [t; app_name (app_cfg app); msg])
     (events_of (create_full_backup env o app t file)).
Proof.
  unfold command_raises.
  intros [Hm [Hd|[[d Hd] Hg]]]; unfold_create; rewrite Hm, Hd; simpl.
  - auto 10.
  - rewrite Hg. simpl. auto 10.
Qed.

Lemma create_full_backup_config_writes env o app t file :
  config_writes (events_of (create_full_backup env o app t file)) = [].
Proof. solve_create o. Qed.

Lemma upload_failure_outcome o :
  creation_succeeds o = true -> upload_succeeds o = false ->
  exists bc, create_outcome o = Returns bc /\ truthy bc = false.
Proof.
  unfold creation_succeeds, upload_succeeds, create_outcome.
  destruct (or_makedirs o) as [e|]; [discriminate|].
  destruct (or_mysqldump o) as [d|e]; [|discriminate].
  destruct (or_gzip o) as [g|e]; [|discriminate].
  intros ->. destruct (or_upload_file o) as [u|e]; intros Hu.
  - now exists u.
  - now exists (PyBool false).
Qed.

Lemma upload_failure_logged env o app t file :
  creation_succeeds o = true -> upload_succeeds o = false ->
  let backup_file := backup_file_of app (strftime (or_create_time o)) t in
  In (EvUploadFile (google_credentials_name (app_cfg app))
        (google_authorized (app_cfg app)) (remote_backup_dir (app_cfg app))
        backup_file)
     (events_of (create_full_backup env o app t file))
  /\ (In (EvLog INFO "error uploading %s" [backup_file])
         (events_of (create_full_backup env o app t file))
      \/ In (EvLog ERROR "Error uploading %s" [backup_file])
            (events_of (create_full_backup env o app t file))).
Proof.
  unfold creation_succeeds, upload_succeeds.
  destruct (or_makedirs o) as [e|] eqn:Hm; [discriminate|].
  destruct (or_mysqldump o) as [d|e] eqn:Hd; [|discriminate].
  destruct (or_gzip o) as [g|e] eqn:Hg; [|discriminate].
  intros Htg Hu. unfold_create. rewrite Hm, Hd, Hg. simpl. rewrite Htg.
  destruct (or_upload_file o) as [u|e]; simpl.
  - rewrite Hu. simpl. split; [auto 12 | left; auto 12].
  - split; [auto 12 | right; auto 12].
Qed.

(** ** The loop over the apps *)

Lemma no_uncaught_outcome o :
  no_uncaught o = true -> exists bc, create_outcome o = Returns bc.
Proof.
  unfold no_uncaught, create_outcome. intros H.
  apply andb_prop in H. destruct H as [H _].
  apply andb_prop in H. destruct H as [H Hg].
  apply andb_prop in H. destruct H as [Hm Hd].
  destruct (or_makedirs o) as [[m|c]|]; try discriminate; [now exists PyNone|].
  destruct (or_mysqldump o) as [d|[m|c]]; try discriminate; [|now exists PyNone].
  destruct (or_gzip o) as [g|[m|c]]; try discriminate; [|now exists PyNone].
  destruct (truthy g); [|now exists g].
  destruct (or_upload_file o) as [u|e]; [now exists u | now exists (PyBool false)].
Qed.

Lemma no_uncaught_save o :
  no_uncaught o = true -> or_save_fault o = None.
Proof.
  unfold no_uncaught. intros H.
  apply andb_prop in H. destruct H as [_ H].
  now destruct (or_save_fault o).
Qed.

(** With nothing uncaught the iteration returns. *)
Lemma do_backup_app_returns env now done app rest file :
  no_uncaught (env_app env (List.length done)) = true ->
  exists app1, result_of (do_backup_app env now done app rest file) = Returns app1.
Proof.
  intros Hn.
  destruct (no_uncaught_outcome _ Hn) as [bc Hc].
  destruct (selected now (app_bk app)) as [t|] eqn:Hs.
  - destruct (truthy bc) eqn:Ht.
    + rewrite (do_backup_app_created env now done app rest file t bc Hs Hc Ht).
      cbv zeta. run_mk. eexists.
      apply rotate_and_save_saved. now apply no_uncaught_save.
    + rewrite (do_backup_app_not_created env now done app rest file t bc Hs Hc Ht).
      now eexists.
  - rewrite (do_backup_app_none env now done app rest file Hs). now eexists.
Qed.

Lemma bind_events_prefix {A B} (m : M A) (k : A -> M B) (file : string) :
  exists post, events_of (bind m k file) = (events_of (m file) ++ post)%list.
Proof.
  unfold bind. destruct (m file) as [[[a|e] evs] file1].
  - destruct (k a file1) as [[r evs2] file2]. now exists evs2.
  - exists []. unfold events_of. simpl. now rewrite app_nil_r.
Qed.

(** The loop reaches every app that only contained failures precede. *)
Lemma do_backup_loop_reaches env now pre :
  forall done app rest file,
    (forall i, (List.length done <= i < List.length done + List.length pre)%nat ->
               no_uncaught (env_app env i) = true) ->
    exists done1 file1 before after,
      List.length done1 = (List.length done + List.length pre)%nat /\
      events_of (do_backup_loop env now done (pre ++ app :: rest) file) =
      (before ++ events_of (do_backup_app env now done1 app rest file1) ++ after)%list.
Proof.
  induction pre as [|a pre IH]; intros done app rest file Hn.
  - simpl.
    destruct (bind_events_prefix (do_backup_app env now done app rest)
                (fun app1 => do_backup_loop env now (done ++ [app1]) rest) file)
      as [post Hp].
    exists done, file, [], post. split; [lia | exact Hp].
  - simpl.
    destruct (do_backup_app_returns env now done a (pre ++ app :: rest) file)
      as [a1 Ha]; [apply Hn; simpl; lia|].
    rewrite (run_eta (do_backup_app env now done a (pre ++ app :: rest) file)) in Ha.
    rewrite result_of_mk in Ha.
    rewrite (bind_returns _ _ file a1 _ _
               (eq_trans (run_eta _) (f_equal (fun r => (r, _, _)) Ha))).
    run_mk.
    destruct (IH (done ++ [a1])%list app rest
                 (file_of (do_backup_app env now done a (pre ++ app :: rest) file)))
      as [done1 [file1 [before [after [Hl He]]]]].
    { intros i Hi. apply Hn. rewrite length_app in Hi. simpl in *. lia. }
    exists done1, file1,
      (events_of (do_backup_app env now done a (pre ++ app :: rest) file) ++ before)%list,
      after.
    split; [rewrite Hl, length_app; simpl; lia|].
    rewrite He. now rewrite <- app_assoc.
Qed.

(** ** Writing the configuration file *)

Lemma append_assoc_str (a b c : string) : ((a ++ b) ++ c = a ++ (b ++ c))%string.
Proof. induction a as [|x a IH]; simpl; [reflexivity | now rewrite IH]. Qed.

Lemma append_empty_r (a : string) : (a ++ "")%string = a.
Proof. induction a as [|x a IH]; simpl; [reflexivity | now rewrite IH]. Qed.

Lemma run_ops_writes chunks content :
  run_ops (map WriteChunk chunks) content = (content ++ join chunks)%string.
Proof.
  unfold run_ops. revert content.
  induction chunks as [|c chunks IH]; intros content; simpl.
  - now rewrite append_empty_r.
  - rewrite IH. apply append_assoc_str.
Qed.

Lemma run_ops_app ops1 ops2 content :
  run_ops (ops1 ++ ops2) content = run_ops ops2 (run_ops ops1 content).
Proof. unfold run_ops. apply fold_left_app. Qed.

(** A completed write leaves the chunks, whatever the file held before. *)
Lemma run_ops_save chunks old :
  run_ops (save_ops chunks) old = join chunks.
Proof.
  unfold save_ops. change (OpenW :: ?l)%list with ([OpenW] ++ l)%list.
  rewrite !run_ops_app, run_ops_writes. reflexivity.
Qed.

(** A write interrupted after the opening and [k] further operations leaves
    the first [k] chunks. *)
Lemma run_ops_save_interrupted chunks old k :
  run_ops (firstn (S k) (save_ops chunks)) old = join (firstn k chunks).
Proof.
  unfold save_ops. rewrite firstn_cons.
  change (OpenW :: ?l)%list with ([OpenW] ++ l)%list.
  rewrite run_ops_app. change (run_ops [OpenW] old) with EmptyString.
  rewrite firstn_app, run_ops_app, firstn_map, run_ops_writes, length_map.
  simpl append.
  destruct (k - List.length chunks)%nat; simpl; rewrite ?firstn_nil; reflexivity.
Qed.

Lemma rotate_and_save_fault env o done app rest file k e :
  or_save_fault o = Some (k, e) ->
  result_of (rotate_and_save env o done app true rest file) = Raises e /\
  file_of (rotate_and_save env o done app true rest file) =
    run_ops (firstn k (save_ops (env_json_chunks env (done ++ app :: rest)))) file.
Proof.
  intros Hs. unfold_tail. simpl. rewrite Hs. simpl. split; reflexivity.
Qed.

(** ** Stamps and paths *)

Ltac ten_cases k :=
  do 10 (destruct k as [|k]; [try reflexivity; try lia|]); try lia.

Lemma of_uint_acc_dig (k : nat) (r : Decimal.uint) (acc : nat) :
  (k < 10)%nat ->
  Nat.of_uint_acc (dig k r) acc = Nat.of_uint_acc r (k + 10 * acc)%nat.
Proof.
  intros Hk.
  do 10 (destruct k as [|k];
         [unfold dig; cbn [Nat.of_uint_acc]; rewrite Nat.tail_mul_spec; reflexivity|]).
  lia.
Qed.

Lemma string_of_uint_dig (k : nat) (r : Decimal.uint) :
  (k < 10)%nat ->
  NilEmpty.string_of_uint (dig k r) = String (digit k) (NilEmpty.string_of_uint r).
Proof. intros Hk. ten_cases k. Qed.

Lemma digit_mod (n : nat) : digit (n mod 10) = digit n.
Proof. unfold digit. now rewrite Nat.Div0.mod_mod. Qed.

(** The decimal digits of a number below ten thousand. *)
Lemma decimal_digits (y : nat) :
  (y < 10 * 1000)%nat ->
  (y = 1000 * (y / 1000) + 100 * ((y / 100) mod 10) + 10 * ((y / 10) mod 10) + y mod 10
   /\ y / 1000 < 10)%nat.
Proof.
  intros Hy.
  pose proof (Nat.div_mod_eq y 10) as H1.
  pose proof (Nat.div_mod_eq (y / 10) 10) as H2.
  pose proof (Nat.div_mod_eq (y / 100) 10) as H3.
  rewrite Nat.Div0.div_div in H2, H3.
  change (10 * 10)%nat with 100%nat in H2.
  change (100 * 10)%nat with 1000%nat in H3.
  assert (H4 : (y / 1000 < 10)%nat) by (apply Nat.Div0.div_lt_upper_bound; lia).
  split; [lia | exact H4].
Qed.

Lemma year_str_dec4 (y : nat) :
  (1000 <= y < 10 * 1000)%nat -> year_str y = dec4 y.
Proof.
  intros [Hlo Hhi].
  destruct (decimal_digits y Hhi) as [Hd Ha].
  pose proof (Nat.mod_upper_bound (y / 100) 10 ltac:(lia)) as Hb.
  pose proof (Nat.mod_upper_bound (y / 10) 10 ltac:(lia)) as Hc.
  pose proof (Nat.mod_upper_bound y 10 ltac:(lia)) as He.
  set (a := (y / 1000)%nat) in *.
  set (b := ((y / 100) mod 10)%nat) in *.
  set (c := ((y / 10) mod 10)%nat) in *.
  set (e := (y mod 10)%nat) in *.
  assert (Hy : y = Nat.of_uint (dig a (dig b (dig c (dig e Decimal.Nil))))).
  { unfold Nat.of_uint. rewrite !of_uint_acc_dig by assumption.
    cbn [Nat.of_uint_acc]. lia. }
  assert (Ha1 : (1 <= a)%nat) by lia.
  unfold year_str. rewrite Hy at 1. rewrite Unsigned.to_of.
  assert (Hs : NilZero.string_of_uint
                 (Decimal.unorm (dig a (dig b (dig c (dig e Decimal.Nil))))) =
               NilEmpty.string_of_uint (dig a (dig b (dig c (dig e Decimal.Nil))))).
  { clear Hy Hd. generalize (dig b (dig c (dig e Decimal.Nil))). intros r.
    destruct a as [|a]; [lia|]. ten_cases a. }
  rewrite Hs, !string_of_uint_dig by assumption.
  unfold dec4, pad2, b, c, e. rewrite !digit_mod. reflexivity.
Qed.

Lemma digit_value_digit (n : nat) : digit_value (digit n) = Some (n mod 10)%nat.
Proof.
  pose proof (Nat.mod_upper_bound n 10 ltac:(lia)) as Hb.
  unfold digit_value, digit. cbv zeta.
  rewrite nat_ascii_embedding by lia.
  assert (H1 : (48 <=? 48 + n mod 10)%nat = true) by (apply Nat.leb_le; lia).
  assert (H2 : (48 + n mod 10 <=? 57)%nat = true) by (apply Nat.leb_le; lia).
  rewrite H1, H2. cbn [andb]. f_equal. lia.
Qed.

Lemma read_number_cons (c : ascii) (r : string) (acc : nat) :
  read_number (String c r) acc =
  match digit_value c with
  | Some d => read_number r (10 * acc + d)%nat
  | None => None
  end.
Proof. reflexivity. Qed.

Lemma read_number_dec4 (y : nat) :
  (y < 10 * 1000)%nat -> read_number (dec4 y) 0 = Some y.
Proof.
  intros Hy.
  destruct (decimal_digits y Hy) as [Hd Ha].
  unfold dec4, pad2.
  repeat (rewrite read_number_cons, digit_value_digit).
  cbn [read_number]. f_equal.
  rewrite (Nat.mod_small (y / 1000) 10) by exact Ha. lia.
Qed.

Lemma read_number_pad2 (n : nat) :
  (n <= 99)%nat -> read_number (pad2 n) 0 = Some n.
Proof.
  intros Hn.
  pose proof (Nat.div_mod_eq n 10) as H1.
  assert (H2 : (n / 10 < 10)%nat) by (apply Nat.Div0.div_lt_upper_bound; lia).
  unfold pad2.
  repeat (rewrite read_number_cons, digit_value_digit).
  cbn [read_number]. f_equal.
  rewrite (Nat.mod_small (n / 10) 10) by exact H2. lia.
Qed.

(** The stamp of a valid time in explicit form. *)
Lemma strftime_explicit (t : StructTime) :
  valid_time t ->
  strftime t =
  (dec4 (tm_year t) ++ "-" ++ pad2 (tm_mon t) ++ "-" ++ pad2 (tm_mday t)
   ++ "_" ++ pad2 (tm_hour t) ++ "-" ++ pad2 (tm_min t))%string.
Proof.
  intros [Hy _]. unfold strftime. now rewrite year_str_dec4.
Qed.

Lemma read_stamp_layout (y3 y2 y1 y0 m1 m0 d1 d0 h1 h0 i1 i0 : ascii) :
  read_stamp
    (String y3 (String y2 (String y1 (String y0 (String "-"
      (String m1 (String m0 (String "-"
        (String d1 (String d0 (String "_"
          (String h1 (String h0 (String "-"
            (String i1 (String i0 EmptyString)))))))))))))))) =
  match read_number (String y3 (String y2 (String y1 (String y0 EmptyString)))) 0,
        read_number (String m1 (String m0 EmptyString)) 0,
        read_number (String d1 (String d0 EmptyString)) 0,
        read_number (String h1 (String h0 EmptyString)) 0,
        read_number (String i1 (String i0 EmptyString)) 0 with
  | Some y, Some m, Some d, Some h, Some mi => Some (mkStructTime y m d h mi)
  | _, _, _, _, _ => None
  end.
Proof. reflexivity. Qed.

Lemma read_stamp_strftime (t : StructTime) :
  valid_time t -> read_stamp (strftime t) = Some t.
Proof.
  intros Hv. rewrite (strftime_explicit t Hv).
  destruct Hv as [Hy [Hm [Hd [Hh Hmi]]]].
  destruct t as [y m d h mi]. simpl in Hy, Hm, Hd, Hh, Hmi.
  transitivity
    (match read_number (dec4 y) 0, read_number (pad2 m) 0, read_number (pad2 d) 0,
           read_number (pad2 h) 0, read_number (pad2 mi) 0 with
     | Some y', Some m', Some d', Some h', Some mi' =>
         Some (mkStructTime y' m' d' h' mi')
     | _, _, _, _, _ => None
     end).
  - exact (read_stamp_layout (digit (y / 1000)) (digit (y / 100)) (digit (y / 10))
             (digit y) (digit (m / 10)) (digit m) (digit (d / 10)) (digit d)
             (digit (h / 10)) (digit h) (digit (mi / 10)) (digit mi)).
  - rewrite read_number_dec4 by lia.
    rewrite !read_number_pad2 by lia.
    reflexivity.
Qed.











(** ** The shell commands of an iteration *)





(** * The scheduling chain *)

(** C2.  Whenever the conditions of two different tiers hold at once for an
    app, its iteration enters [create_full_backup] exactly once, for the
    tier of highest priority whose condition holds: every tier of higher
    priority has a false condition and no second, lower tier is attempted. *)
Theorem one_attempt_of_highest_tier env now done app rest file t1 t2 :
  t1 <> t2 ->
  tier_due t1 now (app_bk app) = true ->
  tier_due t2 now (app_bk app) = true ->
  exists t,
    attempts (events_of (do_backup_app env now done app rest file)) = [tier_name t]
    /\ tier_due t now (app_bk app) = true
    /\ (forall t', (rank t' < rank t)%nat -> tier_due t' now (app_bk app) = false).
Proof.
  intros _ H1 _.
  rewrite do_backup_app_attempts.
  destruct (selected now (app_bk app)) as [t|] eqn:Hs.
  - exists t. apply selected_some in Hs. destruct Hs as [Hd Hh]. auto.
  - rewrite selected_none in Hs. rewrite Hs in H1. discriminate.
Qed.

Lemma one_attempt_of_highest_tier_witness :
  exists t,
    attempts (events_of (do_backup_app (sample_env [jom] (fun _ => oracle_ok))
                           june_2024 [] jom [] "[]")) = [tier_name t]
    /\ tier_due t june_2024 (app_bk jom) = true
    /\ (forall t', (rank t' < rank t)%nat -> tier_due t' june_2024 (app_bk jom) = false).
Proof.
  apply (one_attempt_of_highest_tier _ june_2024 [] jom [] "[]" yearly monthly);
    [discriminate | reflexivity | reflexivity].
Defined.

(** C3.  When the yearly branch fires and [create_full_backup] reports the
    backup created, the app leaves the chain with all four of [last_year],
    [last_month], [last_week] and [last_day] set to the year, month, ISO week
    and day of [now], and that is the app the iteration hands on and, when
    the write succeeds, the list written to the configuration file holds. *)
Theorem yearly_advances_all_four env now done app rest file bc :
  let o := env_app env (List.length done) in
  current_year now > last_year (app_bk app) ->
  result_of (create_full_backup env o app "yearly" file) = Returns bc ->
  truthy bc = true ->
  exists app1,
    app_bk app1 = mkAppBk (current_year now) (current_month now)
                          (current_week now) (current_day now)
    /\ result_of (select_and_create env o now app file) = Returns (app1, true)
    /\ (or_save_fault o = None ->
        result_of (do_backup_app env now done app rest file) = Returns app1 /\
        file_of (do_backup_app env now done app rest file) =
          run_ops (save_ops (env_json_chunks env (done ++ app1 :: rest))) file).
Proof.
  intros o Hy Hr Ht.
  assert (Hs : selected now (app_bk app) = Some yearly).
  { unfold selected, tier_due. apply Z.gtb_gt in Hy. now rewrite Hy. }
  rewrite create_full_backup_result in Hr.
  exists (advance yearly now app). split; [reflexivity|]. split.
  - rewrite (select_and_create_due env o now app file yearly Hs).
    unfold result_of. simpl. fold o in Hr. now rewrite Hr, Ht.
  - intros Hsave.
    rewrite (do_backup_app_created env now done app rest file yearly bc Hs Hr Ht).
    unfold result_of at 1, file_of at 1. simpl.
    apply rotate_and_save_saved. exact Hsave.
Qed.

Lemma yearly_advances_all_four_witness :
  exists app1,
    app_bk app1 = mkAppBk 2024 6 24 15
    /\ result_of (select_and_create (sample_env [jom] (fun _ => oracle_ok)) oracle_ok
                    june_2024 jom "[]") = Returns (app1, true)
    /\ (or_save_fault oracle_ok = None ->
        result_of (do_backup_app (sample_env [jom] (fun _ => oracle_ok))
                     june_2024 [] jom [] "[]") = Returns app1 /\
        file_of (do_backup_app (sample_env [jom] (fun _ => oracle_ok))
                   june_2024 [] jom [] "[]") =
          run_ops (save_ops (name_chunks ([] ++ app1 :: []))) "[]").
Proof.
  apply (yearly_advances_all_four (sample_env [jom] (fun _ => oracle_ok))
           june_2024 [] jom [] "[]" (PyBool true));
    [reflexivity | reflexivity | reflexivity].
Defined.

(** C4.  Once an app has left the chain with the timestamps of the first
    decision written into it (the backup was reported created, so [rotate]
    is set), or with nothing due, a second pass of the same [now] over the
    resulting app enters [create_full_backup] for no tier: each comparison is
    a strict [>] between a value and itself or a value that already failed
    the test. *)
Theorem second_decision_selects_nothing env1 o1 env2 now app file app1 rotate evs
    file1 done2 rest2 file2 :
  select_and_create env1 o1 now app file = (Returns (app1, rotate), evs, file1) ->
  rotate = true \/ attempts evs = [] ->
  attempts (events_of (do_backup_app env2 now done2 app1 rest2 file2)) = []
  /\ do_backup_app env2 now done2 app1 rest2 file2 =
     (Returns app1,
      [EvLog INFO "No rotate all backups to '{}' up to date" [app_name (app_cfg app1)];
       EvLog INFO "end backups to '{}'" [app_name (app_cfg app1)]],
      file2).
Proof.
  intros E Hupd.
  assert (Hn : selected now (app_bk app1) = None).
  { destruct (selected now (app_bk app)) as [t|] eqn:Hs.
    - rewrite (select_and_create_due env1 o1 now app file t Hs) in E.
      injection E as Hr Hev _.
      destruct (create_outcome o1) as [bc|e]; [|discriminate].
      injection Hr as Hr.
      destruct (truthy bc).
      + injection Hr as <- _. now apply selected_advance.
      + injection Hr as _ <-.
        destruct Hupd as [Hupd|Hupd]; [discriminate|].
        rewrite <- Hev, create_full_backup_attempts in Hupd. discriminate.
    - rewrite (select_and_create_none env1 o1 now app file Hs) in E.
      injection E as <- _ _ _. exact Hs. }
  split.
  - rewrite do_backup_app_attempts, Hn. reflexivity.
  - now apply do_backup_app_none.
Qed.

Lemma second_decision_selects_nothing_witness :
  attempts (events_of (do_backup_app (sample_env [jom] (fun _ => oracle_dump_fails))
                         june_2024 [] (advance yearly june_2024 jom) [] "[]")) = []
  /\ do_backup_app (sample_env [jom] (fun _ => oracle_dump_fails))
       june_2024 [] (advance yearly june_2024 jom) [] "[]" =
     (Returns (advance yearly june_2024 jom),
      [EvLog INFO "No rotate all backups to '{}' up to date" ["jom"];
       EvLog INFO "end backups to '{}'" ["jom"]],
      "[]").
Proof.
  apply (second_decision_selects_nothing (sample_env [jom] (fun _ => oracle_ok))
           oracle_ok (sample_env [jom] (fun _ => oracle_dump_fails))
           june_2024 jom "[]" (advance yearly june_2024 jom) true
           (events_of (create_full_backup (sample_env [jom] (fun _ => oracle_ok))
                         oracle_ok jom "yearly" "[]")) "[]" [] [] "[]");
    [reflexivity | left; reflexivity].
Defined.




(** * Failures *)

(** C5.  When a tier is due for an app and the dump or the compression
    fails, the iteration ends with the app exactly as it was, the
    configuration file untouched and never opened for writing, and no
    rotation; the next run over the same app finds the same tier due and
    attempts it again. *)
Theorem creation_failure_changes_nothing env now done app rest file t :
  let o := env_app env (List.length done) in
  let run := do_backup_app env now done app rest file in
  tier_due t now (app_bk app) = true ->
  command_fails o = true ->
  result_of run = Returns app
  /\ file_of run = file
  /\ rotations (events_of run) = []
  /\ config_writes (events_of run) = []
  /\ attempts (events_of run) <> []
  /\ (forall env' done' rest' file',
        attempts (events_of (do_backup_app env' now done' app rest' file')) =
        attempts (events_of run)).
Proof.
  intros o run Hd Hf. subst run.
  destruct (selected now (app_bk app)) as [s|] eqn:Hs.
  2:{ rewrite selected_none in Hs. rewrite Hs in Hd. discriminate. }
  destruct (command_fails_outcome o Hf) as [bc [Hc Ht]].
  rewrite (do_backup_app_not_created env now done app rest file s bc Hs Hc Ht).
  run_mk. fold o.
  repeat split.
  - rewrite rotations_app, create_full_backup_rotations. reflexivity.
  - rewrite config_writes_app, create_full_backup_config_writes. reflexivity.
  - rewrite attempts_app, create_full_backup_attempts. discriminate.
  - intros env' done' rest' file'.
    rewrite do_backup_app_attempts, Hs, attempts_app, create_full_backup_attempts.
    reflexivity.
Qed.

Lemma creation_failure_changes_nothing_witness :
  let run := do_backup_app (sample_env [jom] (fun _ => oracle_dump_fails))
               june_2024 [] jom [] "[]" in
  result_of run = Returns jom
  /\ file_of run = "[]"
  /\ rotations (events_of run) = []
  /\ config_writes (events_of run) = []
  /\ attempts (events_of run) <> []
  /\ (forall env' done' rest' file',
        attempts (events_of (do_backup_app env' june_2024 done' jom rest' file')) =
        attempts (events_of run)).
Proof.
  apply (creation_failure_changes_nothing
           (sample_env [jom] (fun _ => oracle_dump_fails)) june_2024 [] jom [] "[]" yearly);
    reflexivity.
Defined.

(** C10.  When the dump or the compression raises [ExternalCommandFailed],
    [create_full_backup] writes the error record with the message of the
    exception and returns [None], which is not [False] but is false as a
    condition; the iteration of [do_backup] then leaves the app as it was,
    rotates nothing and does not write the configuration file. *)
Theorem command_failure_returns_none env now done app rest file msg :
  let o := env_app env (List.length done) in
  let run := do_backup_app env now done app rest file in
  command_raises o msg ->
  (forall backup_type f,
      result_of (create_full_backup env o app backup_type f) = Returns PyNone
      /\ In (EvLog ERROR "error creating full backup_{} to '{} :{}'"
               [backup_type; app_name (app_cfg app); msg])
            (events_of (create_full_backup env o app backup_type f)))
  /\ PyNone <> PyBool false
  /\ truthy PyNone = false
  /\ result_of run = Returns app
  /\ file_of run = file
  /\ rotations (events_of run) = []
  /\ config_writes (events_of run) = [].
Proof.
  intros o run Hc. subst run.
  pose proof (command_raises_outcome o msg Hc) as Ho.
  split.
  { intros backup_type f. split.
    - rewrite create_full_backup_result. exact Ho.
    - now apply command_raises_logged. }
  split; [discriminate|]. split; [reflexivity|].
  destruct (selected now (app_bk app)) as [s|] eqn:Hs.
  - rewrite (do_backup_app_not_created env now done app rest file s PyNone Hs Ho eq_refl).
    run_mk. fold o.
    repeat split.
    + rewrite rotations_app, create_full_backup_rotations. reflexivity.
    + rewrite config_writes_app, create_full_backup_config_writes. reflexivity.
  - rewrite (do_backup_app_none env now done app rest file Hs).
    repeat split.
Qed.

Lemma command_failure_returns_none_witness :
  let env := sample_env [jom] (fun _ => oracle_dump_fails) in
  let run := do_backup_app env june_2024 [] jom [] "[]" in
  (forall backup_type f,
      result_of (create_full_backup env oracle_dump_fails jom backup_type f) = Returns PyNone
      /\ In (EvLog ERROR "error creating full backup_{} to '{} :{}'"
               [backup_type; "jom"; "exit 2"])
            (events_of (create_full_backup env oracle_dump_fails jom backup_type f)))
  /\ PyNone <> PyBool false
  /\ truthy PyNone = false
  /\ result_of run = Returns jom
  /\ file_of run = "[]"
  /\ rotations (events_of run) = []
  /\ config_writes (events_of run) = [].
Proof.
  apply (command_failure_returns_none
           (sample_env [jom] (fun _ => oracle_dump_fails)) june_2024 [] jom [] "[]" "exit 2").
  split; [reflexivity | left; reflexivity].
Defined.

(** C1 (as the code has it).  When a tier is due, the artifact is created
    and the upload fails, [create_full_backup] hands the failure of the
    upload back to [do_backup]: the upload was tried and its failure logged,
    and the iteration leaves the app as it was, performs no rotation and does
    not write the configuration file. *)
Theorem upload_failure_skips_rotation env now done app rest file t :
  let o := env_app env (List.length done) in
  let run := do_backup_app env now done app rest file in
  tier_due t now (app_bk app) = true ->
  creation_succeeds o = true ->
  upload_succeeds o = false ->
  result_of run = Returns app
  /\ file_of run = file
  /\ rotations (events_of run) = []
  /\ config_writes (events_of run) = []
  /\ exists backup_file,
       In (EvUploadFile (google_credentials_name (app_cfg app))
             (google_authorized (app_cfg app)) (remote_backup_dir (app_cfg app))
             backup_file) (events_of run)
       /\ (In (EvLog INFO "error uploading %s" [backup_file]) (events_of run)
           \/ In (EvLog ERROR "Error uploading %s" [backup_file]) (events_of run)).
Proof.
  intros o run Hd Hc Hu. subst run.
  destruct (selected now (app_bk app)) as [s|] eqn:Hs.
  2:{ rewrite selected_none in Hs. rewrite Hs in Hd. discriminate. }
  destruct (upload_failure_outcome o Hc Hu) as [bc [Ho Ht]].
  rewrite (do_backup_app_not_created env now done app rest file s bc Hs Ho Ht).
  run_mk. fold o.
  repeat split.
  - rewrite rotations_app, create_full_backup_rotations. reflexivity.
  - rewrite config_writes_app, create_full_backup_config_writes. reflexivity.
  - destruct (upload_failure_logged env o app (tier_name s) file Hc Hu) as [H1 H2].
    eexists. split.
    + apply in_or_app. left. exact H1.
    + destruct H2 as [H2|H2]; [left|right]; apply in_or_app; left; exact H2.
Qed.

Lemma upload_failure_skips_rotation_witness :
  let run := do_backup_app (sample_env [jom] (fun _ => oracle_upload_fails))
               june_2024 [] jom [] "[]" in
  result_of run = Returns jom
  /\ file_of run = "[]"
  /\ rotations (events_of run) = []
  /\ config_writes (events_of run) = []
  /\ exists backup_file,
       In (EvUploadFile "cred.json" "auth.json" "jom_remote" backup_file) (events_of run)
       /\ (In (EvLog INFO "error uploading %s" [backup_file]) (events_of run)
           \/ In (EvLog ERROR "Error uploading %s" [backup_file]) (events_of run)).
Proof.
  apply (upload_failure_skips_rotation
           (sample_env [jom] (fun _ => oracle_upload_fails)) june_2024 [] jom [] "[]" yearly);
    reflexivity.
Defined.

(** C1, counterexample.  The yearly backup of [jom] is due, the dump and the
    compression succeed and the upload returns [False]: the whole run ends
    without a single rotation. *)
Lemma upload_failure_no_rotation :
  tier_due yearly june_2024 (app_bk jom) = true
  /\ creation_succeeds oracle_upload_fails = true
  /\ upload_succeeds oracle_upload_fails = false
  /\ rotations (events_of (do_backup (sample_env [jom] (fun _ => oracle_upload_fails))
                             "[]")) = [].
Proof. repeat split. Qed.

(** C7 (as the code has it).  An app of the loaded list is evaluated in the
    run, with the backup its own state and its own oracle call for, whenever
    the apps before it met only failures that the script contains: a dump or
    a compression that raises [ExternalCommandFailed] or reports failure, an
    upload that fails in any way, rotations that report errors. *)
Theorem contained_failures_do_not_stop_the_run env file pre app rest :
  env_json_load env file = Returns (pre ++ app :: rest)%list ->
  (forall i, (i < List.length pre)%nat -> no_uncaught (env_app env i) = true) ->
  exists done1 file1 before after,
    List.length done1 = List.length pre
    /\ events_of (do_backup env file) =
       (before ++ events_of (do_backup_app env (env_now env) done1 app rest file1)
        ++ after)%list
    /\ attempts (events_of (do_backup_app env (env_now env) done1 app rest file1)) =
       match selected (env_now env) (app_bk app) with
       | None => []
       | Some t => [tier_name t]
       end.
Proof.
  intros Hload Hn.
  destruct (do_backup_loop_reaches env (env_now env) pre [] app rest file)
    as [done1 [file1 [before [after [Hl He]]]]].
  { intros i Hi. apply Hn. simpl in Hi. lia. }
  unfold do_backup.
  rewrite (bind_returns (log INFO "starting all backups" []) _ file tt
             [EvLog INFO "starting all backups" []] file eq_refl).
  run_mk.
  assert (Hread : read_config env file =
                  (Returns (pre ++ app :: rest)%list, [EvOpen CONFIG_FILE "r"], file)).
  { unfold read_config. now rewrite Hload. }
  rewrite (bind_returns _ _ file _ _ _ Hread). run_mk.
  destruct (bind_events_prefix
              (do_backup_loop env (env_now env) [] (pre ++ app :: rest))
              (fun cfg1 => log INFO "end all backups" [] ;; ret cfg1) file)
    as [post Hp].
  rewrite Hp, He.
  exists done1, file1,
    ([EvLog INFO "starting all backups" []; EvOpen CONFIG_FILE "r"] ++ before)%list,
    (after ++ post)%list.
  split; [exact Hl|]. split.
  - simpl. now rewrite <- !app_assoc.
  - apply do_backup_app_attempts.
Qed.

Lemma contained_failures_do_not_stop_the_run_witness :
  exists done1 file1 before after,
    List.length done1 = 1%nat
    /\ events_of (do_backup (sample_env [jom; wiki] (fun _ => oracle_dump_fails)) "[]") =
       (before ++ events_of (do_backup_app (sample_env [jom; wiki] (fun _ => oracle_dump_fails))
                               june_2024 done1 wiki [] file1)
        ++ after)%list
    /\ attempts (events_of (do_backup_app (sample_env [jom; wiki] (fun _ => oracle_dump_fails))
                              june_2024 done1 wiki [] file1)) =
       match selected june_2024 (app_bk wiki) with
       | None => []
       | Some t => [tier_name t]
       end.
Proof.
  apply (contained_failures_do_not_stop_the_run
           (sample_env [jom; wiki] (fun _ => oracle_dump_fails)) "[]" [jom] wiki []);
    [reflexivity | intros i _; reflexivity].
Defined.

(** C7, counterexample.  The configuration loads with the two apps [jom]
    (yearly backup due) and [wiki] (daily backup due).  When the
    configuration file cannot be written after the backup of [jom], or when
    the directory for the artifact of [jom] cannot be created, the exception
    ends the run: nothing is attempted for [wiki] and no record names it. *)
Lemma uncaught_failure_stops_the_run :
  tier_due daily june_2024 (app_bk wiki) = true
  /\ (let run := do_backup (sample_env [jom; wiki] (fun _ => oracle_save_fails 0)) "[]" in
      result_of run = Raises (OtherException "OSError")
      /\ attempts (events_of run) = ["yearly"]
      /\ existsb (names_app "wiki") (events_of run) = false)
  /\ (let run := do_backup (sample_env [jom; wiki] (fun _ => oracle_makedirs_fails)) "[]" in
      result_of run = Raises (OtherException "PermissionError")
      /\ attempts (events_of run) = ["yearly"]
      /\ existsb (names_app "wiki") (events_of run) = false).
Proof. repeat split. Qed.

(** * The configuration file *)

(** C8 (as the code has it).  After a backup that was reported created the
    configuration file is opened for writing, which empties it, and the
    serialisation of the whole list of apps, with the timestamps of the
    current app advanced, is written into it chunk by chunk.  A write that
    completes leaves exactly that serialisation; a write that stops after
    the opening and [k] chunks leaves the first [k] chunks and nothing of the
    previous content; only a failure to open leaves the previous content. *)
Theorem save_overwrites_in_place env now done app rest old t bc :
  let o := env_app env (List.length done) in
  let run := do_backup_app env now done app rest old in
  let cfg1 := (done ++ advance t now app :: rest)%list in
  selected now (app_bk app) = Some t ->
  result_of (create_full_backup env o app (tier_name t) old) = Returns bc ->
  truthy bc = true ->
  (or_save_fault o = None ->
     result_of run = Returns (advance t now app)
     /\ file_of run = join (env_json_chunks env cfg1))
  /\ (forall e, or_save_fault o = Some (0%nat, e) ->
        result_of run = Raises e /\ file_of run = old)
  /\ (forall k e, or_save_fault o = Some (S k, e) ->
        result_of run = Raises e
        /\ file_of run = join (firstn k (env_json_chunks env cfg1))).
Proof.
  intros o run cfg1 Hs Hr Ht. subst run cfg1.
  rewrite create_full_backup_result in Hr.
  rewrite (do_backup_app_created env now done app rest old t bc Hs Hr Ht).
  cbv zeta. run_mk. fold o.
  split; [|split].
  - intros Hf.
    destruct (rotate_and_save_saved env o done (advance t now app) rest old Hf) as [H1 H2].
    split; [exact H1|]. rewrite H2. apply run_ops_save.
  - intros e Hf.
    destruct (rotate_and_save_fault env o done (advance t now app) rest old 0 e Hf)
      as [H1 H2].
    split; [exact H1|]. rewrite H2. reflexivity.
  - intros k e Hf.
    destruct (rotate_and_save_fault env o done (advance t now app) rest old (S k) e Hf)
      as [H1 H2].
    split; [exact H1|]. rewrite H2. apply run_ops_save_interrupted.
Qed.

Lemma save_overwrites_in_place_witness :
  let env := sample_env [jom] (fun _ => oracle_save_fails 2) in
  let run := do_backup_app env june_2024 [] jom [] "[jom]" in
  let cfg1 := ([] ++ advance yearly june_2024 jom :: [])%list in
  (or_save_fault (oracle_save_fails 2) = None ->
     result_of run = Returns (advance yearly june_2024 jom)
     /\ file_of run = join (name_chunks cfg1))
  /\ (forall e, or_save_fault (oracle_save_fails 2) = Some (0%nat, e) ->
        result_of run = Raises e /\ file_of run = "[jom]")
  /\ (forall k e, or_save_fault (oracle_save_fails 2) = Some (S k, e) ->
        result_of run = Raises e
        /\ file_of run = join (firstn k (name_chunks cfg1))).
Proof.
  apply (save_overwrites_in_place (sample_env [jom] (fun _ => oracle_save_fails 2))
           june_2024 [] jom [] "[jom]" yearly (PyBool true));
    reflexivity.
Defined.

(** C8, counterexample.  The file holds ["[jom]"] and the run is about to
    write ["[jom]"] again.  A write that stops right after the opening leaves
    an empty file, one that stops after the first chunk leaves ["["]: in both
    cases neither the previous state nor the new one. *)
Lemma interrupted_save_truncates :
  file_of (do_backup (sample_env [jom] (fun _ => oracle_ok)) "[jom]") = "[jom]"
  /\ file_of (do_backup (sample_env [jom] (fun _ => oracle_save_fails 1)) "[jom]") = ""
  /\ file_of (do_backup (sample_env [jom] (fun _ => oracle_save_fails 2)) "[jom]") = "[".
Proof. repeat split. Qed.

(** * The name of the artifact *)




(** * Further properties of the script *)

(** ** [upload_backup] *)

(** X1.  [upload_backup] never lets an exception out: it asks for exactly
    one upload, of the file it was given and with the credentials and folder
    of the app, and returns what [upload_file] returned, or [False] when
    [upload_file] raised, whatever the exception; the configuration file is
    not touched. *)
Theorem upload_backup_contains_every_failure o app backup_file file :
  result_of (upload_backup o app backup_file file) =
    Returns (match or_upload_file o with
             | Returns u => u
             | Raises _ => PyBool false
             end)
  /\ uploads (events_of (upload_backup o app backup_file file)) =
     [EvUploadFile (google_credentials_name (app_cfg app))
        (google_authorized (app_cfg app)) (remote_backup_dir (app_cfg app))
        backup_file]
  /\ file_of (upload_backup o app backup_file file) = file.
Proof.
  unfold upload_backup, upload_file, of_outcome, try_except, bind, log, emit,
    ret, raise, result_of, events_of, file_of.
  destruct (or_upload_file o) as [u|e]; simpl.
  - destruct (truthy u); simpl; repeat split.
  - repeat split.
Qed.

(** ** [create_full_backup] *)

Lemma create_full_backup_uploads_none env o app t file :
  creation_succeeds o = false ->
  uploads (events_of (create_full_backup env o app t file)) = [].
Proof.
  unfold creation_succeeds. unfold_create.
  oracle_cases o; simpl; intros H; try discriminate; try reflexivity;
    repeat match goal with H : truthy _ = _ |- _ => rewrite H end;
    simpl; try reflexivity; congruence.
Qed.

(** X2.  An exception of any class other than [ExternalCommandFailed]
    raised by the directory creation, the dump or the compression leaves
    [create_full_backup] as it is: nothing is uploaded, and the iteration of
    [do_backup] for which the backup was due ends with that exception,
    without rotation and without touching the configuration file. *)
Theorem other_exceptions_leave_create_full_backup env now done app rest file t c :
  let o := env_app env (List.length done) in
  let run := do_backup_app env now done app rest file in
  raises_other o c ->
  tier_due t now (app_bk app) = true ->
  (forall backup_type f,
      result_of (create_full_backup env o app backup_type f) =
        Raises (OtherException c)
      /\ uploads (events_of (create_full_backup env o app backup_type f)) = [])
  /\ result_of run = Raises (OtherException c)
  /\ file_of run = file
  /\ rotations (events_of run) = []
  /\ config_writes (events_of run) = [].
Proof.
  intros o run Hr Hd. subst run.
  assert (Ho : create_outcome o = Raises (OtherException c)).
  { unfold create_outcome.
    destruct Hr as [Hm|[[Hm Hq]|[Hm [[d Hq] Hg]]]]; rewrite Hm; try rewrite Hq;
      try rewrite Hg; reflexivity. }
  assert (Hc : creation_succeeds o = false).
  { unfold creation_succeeds.
    destruct Hr as [Hm|[[Hm Hq]|[Hm [[d Hq] Hg]]]]; rewrite Hm; try rewrite Hq;
      try rewrite Hg; reflexivity. }
  split.
  { intros backup_type f. split.
    - rewrite create_full_backup_result. exact Ho.
    - now apply create_full_backup_uploads_none. }
  destruct (selected now (app_bk app)) as [s|] eqn:Hs.
  2:{ rewrite selected_none in Hs. rewrite Hs in Hd. discriminate. }
  unfold do_backup_app. fold o.
  pose proof (select_and_create_due env o now app file s Hs) as E.
  rewrite Ho in E.
  rewrite (bind_raises _ _ _ _ _ _ E). run_mk.
  repeat split.
  - apply create_full_backup_rotations.
  - apply create_full_backup_config_writes.
Qed.

Lemma other_exceptions_leave_create_full_backup_witness :
  let env := sample_env [jom] (fun _ => oracle_makedirs_fails) in
  let run := do_backup_app env june_2024 [] jom [] "[]" in
  (forall backup_type f,
      result_of (create_full_backup env oracle_makedirs_fails jom backup_type f) =
        Raises (OtherException "PermissionError")
      /\ uploads (events_of (create_full_backup env oracle_makedirs_fails jom
                               backup_type f)) = [])
  /\ result_of run = Raises (OtherException "PermissionError")
  /\ file_of run = "[]"
  /\ rotations (events_of run) = []
  /\ config_writes (events_of run) = [].
Proof.
  apply (other_exceptions_leave_create_full_backup
           (sample_env [jom] (fun _ => oracle_makedirs_fails)) june_2024 [] jom []
           "[]" yearly "PermissionError");
    [left; reflexivity | reflexivity].
Defined.





(** ** The whole run *)

Lemma do_backup_app_raised env now done app rest file t e :
  selected now (app_bk app) = Some t ->
  create_outcome (env_app env (List.length done)) = Raises e ->
  do_backup_app env now done app rest file =
  (Raises e,
   events_of (create_full_backup env (env_app env (List.length done)) app
                (tier_name t) file),
   file).
Proof.
  intros Hs Hc. unfold do_backup_app.
  pose proof (select_and_create_due env (env_app env (List.length done)) now app file t Hs) as E.
  rewrite Hc in E.
  now rewrite (bind_raises _ _ _ _ _ _ E).
Qed.

(** The run once the configuration is loaded. *)
Lemma do_backup_loaded env file cfg :
  env_json_load env file = Returns cfg ->
  do_backup env file =
  let r := do_backup_loop env (env_now env) [] cfg file in
  (result_of r,
   ([EvLog INFO "starting all backups" []; EvOpen CONFIG_FILE "r"] ++ events_of r ++
    match result_of r with
    | Returns _ => [EvLog INFO "end all backups" []]
    | Raises _ => []
    end)%list,
   file_of r).
Proof.
  intros Hload. unfold do_backup.
  rewrite (bind_returns (log INFO "starting all backups" []) _ file tt
             [EvLog INFO "starting all backups" []] file eq_refl).
  assert (Hread : read_config env file =
                  (Returns cfg, [EvOpen CONFIG_FILE "r"], file)).
  { unfold read_config. now rewrite Hload. }
  rewrite (bind_returns _ _ file _ _ _ Hread). run_mk.
  cbv zeta.
  destruct (do_backup_loop env (env_now env) [] cfg file) as [[[cfg1|e] evs] f1] eqn:E.
  - rewrite (bind_returns _ _ _ _ _ _ E). reflexivity.
  - rewrite (bind_raises _ _ _ _ _ _ E). run_mk. simpl. now rewrite app_nil_r.
Qed.

(** One step of the loop. *)
Lemma do_backup_loop_cons env now done app rest file :
  do_backup_loop env now done (app :: rest) file =
  let it := do_backup_app env now done app rest file in
  match result_of it with
  | Returns app1 =>
      let r := do_backup_loop env now (done ++ [app1]) rest (file_of it) in
      (result_of r, (events_of it ++ events_of r)%list, file_of r)
  | Raises e => (Raises e, events_of it, file_of it)
  end.
Proof.
  simpl. unfold bind.
  destruct (do_backup_app env now done app rest file) as [[[app1|e] evs] f1]; run_mk.
  - cbv zeta.
    destruct (do_backup_loop env now (done ++ [app1]) rest f1) as [[r evs2] f2].
    reflexivity.
  - reflexivity.
Qed.

(** What an iteration that returns has done. *)
Lemma do_backup_app_returned env now done app rest file app1 :
  result_of (do_backup_app env now done app rest file) = Returns app1 ->
  (app1 = app
   /\ file_of (do_backup_app env now done app rest file) = file
   /\ config_writes (events_of (do_backup_app env now done app rest file)) = []
   /\ rotations (events_of (do_backup_app env now done app rest file)) = []
   /\ (selected now (app_bk app) = None
       \/ exists bc, create_outcome (env_app env (List.length done)) = Returns bc
                     /\ truthy bc = false))
  \/ (exists t bc,
        selected now (app_bk app) = Some t
        /\ create_outcome (env_app env (List.length done)) = Returns bc
        /\ truthy bc = true
        /\ app1 = advance t now app
        /\ file_of (do_backup_app env now done app rest file) =
           join (env_json_chunks env (done ++ app1 :: rest))).
Proof.
  set (o := env_app env (List.length done)).
  destruct (selected now (app_bk app)) as [t|] eqn:Hs.
  - destruct (create_outcome o) as [bc|e] eqn:Hc.
    + destruct (truthy bc) eqn:Ht.
      * rewrite (do_backup_app_created env now done app rest file t bc Hs Hc Ht).
        cbv zeta. run_mk. fold o. intros Hr. right.
        destruct (or_save_fault o) as [[k e]|] eqn:Hf.
        { destruct (rotate_and_save_fault env o done (advance t now app) rest file k e Hf)
            as [H1 _]. rewrite H1 in Hr. discriminate. }
        destruct (rotate_and_save_saved env o done (advance t now app) rest file Hf)
          as [H1 H2].
        rewrite H1 in Hr. injection Hr as <-.
        exists t, bc. repeat split; try assumption.
        rewrite H2. apply run_ops_save.
      * rewrite (do_backup_app_not_created env now done app rest file t bc Hs Hc Ht).
        run_mk. fold o. intros Hr. injection Hr as <-. left.
        repeat split.
        -- rewrite config_writes_app, create_full_backup_config_writes. reflexivity.
        -- rewrite rotations_app, create_full_backup_rotations. reflexivity.
        -- right. now exists bc.
    + rewrite (do_backup_app_raised env now done app rest file t e Hs Hc).
      run_mk. discriminate.
  - rewrite (do_backup_app_none env now done app rest file Hs). run_mk.
    intros Hr. injection Hr as <-. left. repeat split. now left.
Qed.

(** X5.  When the configuration cannot be loaded the run ends with the
    exception of the loader before any app is looked at: nothing is
    attempted, the file is as it was, and the closing record is not
    written. *)
Theorem load_failure_ends_the_run env file e :
  env_json_load env file = Raises e ->
  do_backup env file =
  (Raises e,
   [EvLog INFO "starting all backups" []; EvOpen CONFIG_FILE "r"],
   file).
Proof.
  intros Hload. unfold do_backup.
  rewrite (bind_returns (log INFO "starting all backups" []) _ file tt
             [EvLog INFO "starting all backups" []] file eq_refl).
  assert (Hread : read_config env file = (Raises e, [EvOpen CONFIG_FILE "r"], file)).
  { unfold read_config. now rewrite Hload. }
  rewrite (bind_raises _ _ file _ _ _ Hread). reflexivity.
Qed.

Lemma load_failure_ends_the_run_witness :
  do_backup (mkEnv (fun p => p) (fun _ => Raises (OtherException "JSONDecodeError"))
               name_chunks june_2024 (fun _ => oracle_ok)) "[" =
  (Raises (OtherException "JSONDecodeError"),
   [EvLog INFO "starting all backups" []; EvOpen CONFIG_FILE "r"],
   "[").
Proof.
  apply (load_failure_ends_the_run
           (mkEnv (fun p => p) (fun _ => Raises (OtherException "JSONDecodeError"))
              name_chunks june_2024 (fun _ => oracle_ok)) "["
           (OtherException "JSONDecodeError")).
  reflexivity.
Defined.

Lemma do_backup_loop_up_to_date env now todo :
  forall done file,
    Forall (up_to_date now) todo ->
    do_backup_loop env now done todo file =
    (Returns (done ++ todo)%list, up_to_date_records todo, file).
Proof.
  induction todo as [|app rest IH]; intros done file Hall.
  - simpl. unfold ret. now rewrite app_nil_r.
  - inversion Hall as [|? ? Happ Hrest]; subst.
    rewrite do_backup_loop_cons.
    assert (Hs : selected now (app_bk app) = None) by now apply selected_none.
    rewrite (do_backup_app_none env now done app rest file Hs).
    cbv zeta. run_mk. rewrite (IH _ _ Hrest). run_mk.
    now rewrite <- app_assoc.
Qed.

Lemma do_backup_up_to_date env file cfg :
  env_json_load env file = Returns cfg ->
  Forall (up_to_date (env_now env)) cfg ->
  do_backup env file =
    (Returns cfg,
     ([EvLog INFO "starting all backups" []; EvOpen CONFIG_FILE "r"]
      ++ up_to_date_records cfg ++ [EvLog INFO "end all backups" []])%list,
     file)
  /\ attempts (events_of (do_backup env file)) = []
  /\ rotations (events_of (do_backup env file)) = []
  /\ config_writes (events_of (do_backup env file)) = [].
Proof.
  intros Hload Hall.
  assert (E : do_backup env file =
              (Returns cfg,
               ([EvLog INFO "starting all backups" []; EvOpen CONFIG_FILE "r"]
                ++ up_to_date_records cfg ++ [EvLog INFO "end all backups" []])%list,
               file)).
  { rewrite (do_backup_loaded env file cfg Hload).
    rewrite (do_backup_loop_up_to_date env (env_now env) cfg [] file Hall).
    reflexivity. }
  split; [exact E|]. rewrite E. run_mk.
  assert (Ha : attempts (up_to_date_records cfg) = []
               /\ rotations (up_to_date_records cfg) = []
               /\ config_writes (up_to_date_records cfg) = []).
  { clear. induction cfg as [|a cfg IH]; [repeat split|].
    destruct IH as [I1 [I2 I3]]. repeat split; simpl; assumption. }
  destruct Ha as [A1 [A2 A3]].
  rewrite attempts_app, rotations_app, config_writes_app.
  rewrite attempts_app, rotations_app, config_writes_app, A1, A2, A3.
  repeat split.
Qed.

(** X6.  When no app of the loaded list has anything due (in particular
    when the list is empty) the run returns the list as it was loaded,
    attempts no backup, rotates nothing, never opens the configuration file
    for writing and leaves its content alone; its trace is the opening
    record, the read, two records per app and the closing record. *)
Theorem nothing_due_nothing_done env file cfg :
  env_json_load env file = Returns cfg ->
  Forall (up_to_date (env_now env)) cfg ->
  do_backup env file =
    (Returns cfg,
     ([EvLog INFO "starting all backups" []; EvOpen CONFIG_FILE "r"]
      ++ up_to_date_records cfg ++ [EvLog INFO "end all backups" []])%list,
     file)
  /\ attempts (events_of (do_backup env file)) = []
  /\ rotations (events_of (do_backup env file)) = []
  /\ config_writes (events_of (do_backup env file)) = [].
Proof. exact (do_backup_up_to_date env file cfg). Qed.

Lemma nothing_due_nothing_done_witness :
  let env := sample_env [advance yearly june_2024 jom] (fun _ => oracle_ok) in
  do_backup env "[jom]" =
    (Returns [advance yearly june_2024 jom],
     ([EvLog INFO "starting all backups" []; EvOpen CONFIG_FILE "r"]
      ++ up_to_date_records [advance yearly june_2024 jom]
      ++ [EvLog INFO "end all backups" []])%list,
     "[jom]")
  /\ attempts (events_of (do_backup env "[jom]")) = []
  /\ rotations (events_of (do_backup env "[jom]")) = []
  /\ config_writes (events_of (do_backup env "[jom]")) = [].
Proof.
  apply (nothing_due_nothing_done
           (sample_env [advance yearly june_2024 jom] (fun _ => oracle_ok)) "[jom]"
           [advance yearly june_2024 jom]).
  - reflexivity.
  - constructor; [|constructor]. intros []; reflexivity.
Defined.

Lemma do_backup_loop_file env now todo :
  forall done file cfg1,
    result_of (do_backup_loop env now done todo file) = Returns cfg1 ->
    (cfg1 = (done ++ todo)%list
     /\ file_of (do_backup_loop env now done todo file) = file
     /\ config_writes (events_of (do_backup_loop env now done todo file)) = [])
    \/ file_of (do_backup_loop env now done todo file) =
       join (env_json_chunks env cfg1).
Proof.
  induction todo as [|app rest IH]; intros done file cfg1.
  - simpl. unfold ret. cbv beta. run_mk. intros H. injection H as <-. left.
    rewrite app_nil_r. repeat split.
  - rewrite do_backup_loop_cons. cbv zeta.
    destruct (result_of (do_backup_app env now done app rest file)) as [app1|e] eqn:Hit;
      [|run_mk; discriminate].
    cbv zeta. run_mk. intros Hr.
    destruct (IH (done ++ [app1])%list
                 (file_of (do_backup_app env now done app rest file)) cfg1 Hr)
      as [[Hc [Hf Hw]]|Hf].
    + rewrite <- app_assoc in Hc. simpl in Hc.
      destruct (do_backup_app_returned env now done app rest file app1 Hit)
        as [[Ha [Hf1 [Hw1 _]]]|[t [bc [_ [_ [_ [_ Hf1]]]]]]].
      * left. subst app1. split; [exact Hc|]. split; [congruence|].
        rewrite config_writes_app, Hw1, Hw. reflexivity.
      * right. rewrite Hf, Hf1, Hc. reflexivity.
    + right. exact Hf.
Qed.

(** X7.  After a run that completes, the configuration file agrees with
    the list the run ends with: either the file was never opened for writing,
    it holds what it held and the list is the loaded one, or the file holds
    the serialisation of exactly the final list. *)
Theorem completed_run_file_matches_list env file cfg cfg1 :
  env_json_load env file = Returns cfg ->
  result_of (do_backup env file) = Returns cfg1 ->
  (cfg1 = cfg
   /\ file_of (do_backup env file) = file
   /\ config_writes (events_of (do_backup env file)) = [])
  \/ file_of (do_backup env file) = join (env_json_chunks env cfg1).
Proof.
  intros Hload. rewrite (do_backup_loaded env file cfg Hload). cbv zeta. run_mk.
  intros Hr.
  destruct (do_backup_loop_file env (env_now env) cfg [] file cfg1 Hr)
    as [[Hc [Hf Hw]]|Hf].
  - left. split; [exact Hc|]. split; [exact Hf|].
    rewrite Hr. rewrite config_writes_app, config_writes_app, Hw. reflexivity.
  - right. exact Hf.
Qed.

Lemma completed_run_file_matches_list_witness :
  let env := sample_env [jom; wiki] (fun _ => oracle_ok) in
  ([advance yearly june_2024 jom; advance daily june_2024 wiki] = [jom; wiki]
   /\ file_of (do_backup env "[]") = "[]"
   /\ config_writes (events_of (do_backup env "[]")) = [])
  \/ file_of (do_backup env "[]") =
     join (name_chunks [advance yearly june_2024 jom; advance daily june_2024 wiki]).
Proof.
  apply (completed_run_file_matches_list
           (sample_env [jom; wiki] (fun _ => oracle_ok)) "[]" [jom; wiki]
           [advance yearly june_2024 jom; advance daily june_2024 wiki]);
    reflexivity.
Defined.

Lemma advance_only_bk_moved now app t :
  selected now (app_bk app) = Some t ->
  only_bk_moved now app (advance t now app).
Proof.
  intros Hs. apply selected_some in Hs. destruct Hs as [Hd Hh].
  unfold only_bk_moved.
  destruct t; simpl; repeat split; auto; try lia.
  - simpl in Hd. apply Z.gtb_gt in Hd. lia.
Qed.

Lemma only_bk_moved_refl now app : only_bk_moved now app app.
Proof. unfold only_bk_moved. repeat split; auto; lia. Qed.

Lemma do_backup_loop_only_bk env now todo :
  forall done file cfg1,
    result_of (do_backup_loop env now done todo file) = Returns cfg1 ->
    exists todo1, cfg1 = (done ++ todo1)%list
                  /\ Forall2 (only_bk_moved now) todo todo1.
Proof.
  induction todo as [|app rest IH]; intros done file cfg1.
  - simpl. unfold ret. cbv beta. run_mk. intros H. injection H as <-.
    exists []. split; [now rewrite app_nil_r | constructor].
  - rewrite do_backup_loop_cons. cbv zeta.
    destruct (result_of (do_backup_app env now done app rest file)) as [app1|e] eqn:Hit;
      [|run_mk; discriminate].
    cbv zeta. run_mk. intros Hr.
    destruct (IH _ _ _ Hr) as [todo1 [Hc Hall]].
    exists (app1 :: todo1). split.
    + rewrite Hc, <- app_assoc. reflexivity.
    + constructor; [|exact Hall].
      destruct (do_backup_app_returned env now done app rest file app1 Hit)
        as [[Ha _]|[t [bc [Hs [_ [_ [Ha _]]]]]]]; subst app1.
      * apply only_bk_moved_refl.
      * now apply advance_only_bk_moved.
Qed.

(** X8.  A run that completes returns the apps of the loaded list in the
    same order and number; of each app only the timestamps under [bk] may
    differ: the sections [cfg], [rotate] and [custom] are the loaded ones,
    every timestamp is the loaded one or the corresponding unit of [now], and
    the stored year has not gone back. *)
Theorem run_moves_only_timestamps env file cfg cfg1 :
  env_json_load env file = Returns cfg ->
  result_of (do_backup env file) = Returns cfg1 ->
  Forall2 (only_bk_moved (env_now env)) cfg cfg1.
Proof.
  intros Hload. rewrite (do_backup_loaded env file cfg Hload). cbv zeta. run_mk.
  intros Hr.
  destruct (do_backup_loop_only_bk env (env_now env) cfg [] file cfg1 Hr)
    as [todo1 [Hc Hall]].
  simpl in Hc. now subst.
Qed.

Lemma run_moves_only_timestamps_witness :
  Forall2 (only_bk_moved june_2024) [jom; wiki]
    [advance yearly june_2024 jom; advance daily june_2024 wiki].
Proof.
  apply (run_moves_only_timestamps
           (sample_env [jom; wiki] (fun _ => oracle_ok)) "[]" [jom; wiki]
           [advance yearly june_2024 jom; advance daily june_2024 wiki]);
    reflexivity.
Defined.

Lemma due_tiers_app now l1 l2 :
  due_tiers now (l1 ++ l2) = (due_tiers now l1 ++ due_tiers now l2)%list.
Proof. unfold due_tiers. apply flat_map_app. Qed.

Lemma do_backup_loop_attempts env now todo :
  forall done file,
    exists k,
      (k <= List.length todo)%nat
      /\ attempts (events_of (do_backup_loop env now done todo file)) =
         due_tiers now (firstn k todo)
      /\ (forall cfg1, result_of (do_backup_loop env now done todo file) = Returns cfg1 ->
                       k = List.length todo).
Proof.
  induction todo as [|app rest IH]; intros done file.
  - exists 0%nat. simpl. repeat split; auto.
  - rewrite do_backup_loop_cons. cbv zeta.
    pose proof (do_backup_app_attempts env now done app rest file) as Ha.
    destruct (result_of (do_backup_app env now done app rest file)) as [app1|e] eqn:Hit.
    + cbv zeta. run_mk.
      destruct (IH (done ++ [app1])%list
                   (file_of (do_backup_app env now done app rest file)))
        as [k [Hk [Hat Hall]]].
      exists (S k). split; [simpl; lia|]. split.
      * rewrite attempts_app, Ha, Hat.
        change (firstn (S k) (app :: rest)) with ([app] ++ firstn k rest)%list.
        rewrite due_tiers_app. unfold due_tiers at 2. simpl flat_map.
        now rewrite app_nil_r.
      * intros cfg1 Hr. simpl. f_equal. now apply (Hall cfg1).
    + exists 1%nat. run_mk. split; [simpl; lia|]. split.
      * rewrite Ha. unfold due_tiers. simpl. now rewrite app_nil_r.
      * discriminate.
Qed.

(** X9.  In one run every app is attempted at most once: the backups
    attempted are those due for a leading part of the loaded list, one per
    due app and in the order of the list, each for the tier found due on the
    app as it was loaded; when the run completes they are those of the whole
    list. *)
Theorem run_attempts_each_due_app_once env file cfg :
  env_json_load env file = Returns cfg ->
  exists k,
    (k <= List.length cfg)%nat
    /\ attempts (events_of (do_backup env file)) =
       due_tiers (env_now env) (firstn k cfg)
    /\ (List.length (attempts (events_of (do_backup env file))) <= List.length cfg)%nat
    /\ (forall cfg1, result_of (do_backup env file) = Returns cfg1 ->
                     attempts (events_of (do_backup env file)) =
                     due_tiers (env_now env) cfg).
Proof.
  intros Hload. rewrite (do_backup_loaded env file cfg Hload). cbv zeta. run_mk.
  destruct (do_backup_loop_attempts env (env_now env) cfg [] file)
    as [k [Hk [Hat Hall]]].
  assert (Hev : attempts
                  ([EvLog INFO "starting all backups" []; EvOpen CONFIG_FILE "r"] ++
                   events_of (do_backup_loop env (env_now env) [] cfg file) ++
                   match result_of (do_backup_loop env (env_now env) [] cfg file) with
                   | Returns _ => [EvLog INFO "end all backups" []]
                   | Raises _ => []
                   end) = due_tiers (env_now env) (firstn k cfg)).
  { rewrite attempts_app, attempts_app, Hat.
    destruct (result_of (do_backup_loop env (env_now env) [] cfg file));
      simpl; now rewrite app_nil_r. }
  exists k. split; [exact Hk|]. split; [exact Hev|]. split.
  - rewrite Hev. unfold due_tiers.
    assert (Hlen : forall l, (List.length
                     (flat_map (fun a => match selected (env_now env) (app_bk a) with
                                         | Some t => [tier_name t]
                                         | None => []
                                         end) l) <= List.length l)%nat).
    { induction l as [|a l IHl]; simpl; [lia|].
      rewrite length_app. destruct (selected (env_now env) (app_bk a)); simpl; lia. }
    pose proof (Hlen (firstn k cfg)) as H1.
    pose proof (firstn_le_length k cfg) as H2. lia.
  - intros cfg1 Hr. rewrite Hev, (Hall cfg1 Hr), firstn_all. reflexivity.
Qed.

Lemma run_attempts_each_due_app_once_witness :
  let env := sample_env [jom; wiki] (fun _ => oracle_dump_fails) in
  exists k,
    (k <= List.length [jom; wiki])%nat
    /\ attempts (events_of (do_backup env "[]")) = due_tiers june_2024 (firstn k [jom; wiki])
    /\ (List.length (attempts (events_of (do_backup env "[]"))) <= List.length [jom; wiki])%nat
    /\ (forall cfg1, result_of (do_backup env "[]") = Returns cfg1 ->
                     attempts (events_of (do_backup env "[]")) =
                     due_tiers june_2024 [jom; wiki]).
Proof.
  apply (run_attempts_each_due_app_once
           (sample_env [jom; wiki] (fun _ => oracle_dump_fails)) "[]" [jom; wiki]).
  reflexivity.
Defined.

Lemma backup_succeeds_outcome o :
  backup_succeeds o = true ->
  exists bc, create_outcome o = Returns bc /\ truthy bc = true.
Proof.
  unfold backup_succeeds, creation_succeeds, upload_succeeds, create_outcome.
  intros H. apply andb_prop in H. destruct H as [Hc Hu].
  destruct (or_makedirs o) as [e|]; [discriminate|].
  destruct (or_mysqldump o) as [d|e]; [|discriminate].
  destruct (or_gzip o) as [g|e]; [|discriminate].
  rewrite Hc. destruct (or_upload_file o) as [u|e]; [|discriminate].
  now exists u.
Qed.

Lemma backup_fails_outcome o bc :
  backup_succeeds o = false ->
  create_outcome o = Returns bc -> truthy bc = false.
Proof.
  unfold backup_succeeds, creation_succeeds, upload_succeeds, create_outcome.
  destruct (or_makedirs o) as [[m|c]|]; simpl.
  - intros _ H. now injection H as <-.
  - discriminate.
  - destruct (or_mysqldump o) as [d|[m|c]]; simpl.
    + destruct (or_gzip o) as [g|[m|c]]; simpl.
      * destruct (truthy g) eqn:Hg; simpl.
        -- destruct (or_upload_file o) as [u|e]; intros Hu H; injection H as <-;
             [exact Hu | reflexivity].
        -- intros _ H. now injection H as <-.
      * intros _ H. now injection H as <-.
      * discriminate.
    + intros _ H. now injection H as <-.
    + discriminate.
Qed.

Lemma do_backup_loop_all_up_to_date env now todo :
  forall done file cfg1,
    (forall i, (List.length done <= i < List.length done + List.length todo)%nat ->
               backup_succeeds (env_app env i) = true) ->
    result_of (do_backup_loop env now done todo file) = Returns cfg1 ->
    exists todo1, cfg1 = (done ++ todo1)%list /\ Forall (up_to_date now) todo1.
Proof.
  induction todo as [|app rest IH]; intros done file cfg1 Hgood.
  - simpl. unfold ret. cbv beta. run_mk. intros H. injection H as <-.
    exists []. split; [now rewrite app_nil_r | constructor].
  - rewrite do_backup_loop_cons. cbv zeta.
    destruct (result_of (do_backup_app env now done app rest file)) as [app1|e] eqn:Hit;
      [|run_mk; discriminate].
    run_mk. intros Hr.
    destruct (IH (done ++ [app1])%list
                 (file_of (do_backup_app env now done app rest file)) cfg1)
      as [todo1 [Hc Hall]]; [|exact Hr|].
    { intros i Hi. apply Hgood. rewrite length_app in Hi. simpl in *. lia. }
    exists (app1 :: todo1). split; [rewrite Hc, <- app_assoc; reflexivity|].
    constructor; [|exact Hall].
    assert (Hg : backup_succeeds (env_app env (List.length done)) = true)
      by (apply Hgood; simpl; lia).
    destruct (backup_succeeds_outcome _ Hg) as [bc [Ho Ht]].
    destruct (do_backup_app_returned env now done app rest file app1 Hit)
      as [[Ha [_ [_ [_ [Hs|[bc' [Ho' Ht']]]]]]]|[t [bc' [Hs [_ [_ [Ha _]]]]]]].
    + subst app1. exact (proj1 (selected_none _ _) Hs).
    + rewrite Ho in Ho'. injection Ho' as <-. congruence.
    + subst app1. exact (proj1 (selected_none _ _) (selected_advance now app t Hs)).
Qed.

(** X10.  A run in which every backup succeeds (creation and upload)
    leaves every app of the list it returns up to date for the [now] of that
    run, so that a second run at the same [now] over that list, whatever the
    outside world then answers, attempts nothing, rotates nothing, writes
    nothing and returns the list unchanged. *)
Theorem second_run_does_nothing env file cfg cfg1 env2 file2 :
  env_json_load env file = Returns cfg ->
  (forall i, (i < List.length cfg)%nat -> backup_succeeds (env_app env i) = true) ->
  result_of (do_backup env file) = Returns cfg1 ->
  env_json_load env2 file2 = Returns cfg1 ->
  env_now env2 = env_now env ->
  Forall (up_to_date (env_now env)) cfg1
  /\ result_of (do_backup env2 file2) = Returns cfg1
  /\ file_of (do_backup env2 file2) = file2
  /\ attempts (events_of (do_backup env2 file2)) = []
  /\ rotations (events_of (do_backup env2 file2)) = []
  /\ config_writes (events_of (do_backup env2 file2)) = [].
Proof.
  intros Hload Hgood Hr Hload2 Hnow.
  rewrite (do_backup_loaded env file cfg Hload) in Hr. cbv zeta in Hr.
  rewrite result_of_mk in Hr.
  destruct (do_backup_loop_all_up_to_date env (env_now env) cfg [] file cfg1)
    as [todo1 [Hc Hall]]; [intros i Hi; apply Hgood; simpl in Hi; lia | exact Hr |].
  simpl in Hc. subst todo1.
  split; [exact Hall|].
  rewrite <- Hnow in Hall.
  destruct (do_backup_up_to_date env2 file2 cfg1 Hload2 Hall) as [E [A1 [A2 A3]]].
  rewrite A1, A2, A3. rewrite E. run_mk. repeat split.
Qed.

Lemma second_run_does_nothing_witness :
  let cfg1 := [advance yearly june_2024 jom; advance daily june_2024 wiki] in
  let env2 := sample_env cfg1 (fun _ => oracle_dump_fails) in
  Forall (up_to_date june_2024) cfg1
  /\ result_of (do_backup env2 "[jomwiki]") = Returns cfg1
  /\ file_of (do_backup env2 "[jomwiki]") = "[jomwiki]"
  /\ attempts (events_of (do_backup env2 "[jomwiki]")) = []
  /\ rotations (events_of (do_backup env2 "[jomwiki]")) = []
  /\ config_writes (events_of (do_backup env2 "[jomwiki]")) = [].
Proof.
  apply (second_run_does_nothing
           (sample_env [jom; wiki] (fun _ => oracle_ok)) "[]" [jom; wiki]
           [advance yearly june_2024 jom; advance daily june_2024 wiki]
           (sample_env [advance yearly june_2024 jom; advance daily june_2024 wiki]
              (fun _ => oracle_dump_fails))
           "[jomwiki]");
    reflexivity.
Defined.

(** The loop over a leading part of the list that meets no uncaught
    exception. *)
Lemma do_backup_loop_prefix env now pre :
  forall done todo file,
    (forall i, (List.length done <= i < List.length done + List.length pre)%nat ->
               no_uncaught (env_app env i) = true) ->
    exists pre1 evs1 file1,
      Forall2 (only_bk_moved now) pre pre1
      /\ do_backup_loop env now done (pre ++ todo) file =
         (result_of (do_backup_loop env now (done ++ pre1) todo file1),
          (evs1 ++ events_of (do_backup_loop env now (done ++ pre1) todo file1))%list,
          file_of (do_backup_loop env now (done ++ pre1) todo file1)).
Proof.
  induction pre as [|a pre IH]; intros done todo file Hn.
  - exists [], [], file. split; [constructor|].
    rewrite app_nil_r. simpl. apply run_eta.
  - simpl app. rewrite do_backup_loop_cons. cbv zeta.
    destruct (do_backup_app_returns env now done a (pre ++ todo) file)
      as [a1 Ha]; [apply Hn; simpl; lia|].
    rewrite Ha.
    destruct (IH (done ++ [a1])%list todo
                 (file_of (do_backup_app env now done a (pre ++ todo) file)))
      as [pre1 [evs1 [file1 [Hall E]]]].
    { intros i Hi. apply Hn. rewrite length_app in Hi. simpl in *. lia. }
    exists (a1 :: pre1),
      (events_of (do_backup_app env now done a (pre ++ todo) file) ++ evs1)%list,
      file1.
    split.
    + constructor; [|exact Hall].
      destruct (do_backup_app_returned env now done a (pre ++ todo) file a1 Ha)
        as [[H1 _]|[t [bc [Hs [_ [_ [H1 _]]]]]]]; subst a1.
      * apply only_bk_moved_refl.
      * now apply advance_only_bk_moved.
    + rewrite E. run_mk. rewrite <- !app_assoc. reflexivity.
Qed.

Lemma do_backup_app_no_save env now done app rest file :
  backup_succeeds (env_app env (List.length done)) = false ->
  file_of (do_backup_app env now done app rest file) = file.
Proof.
  intros Hb.
  destruct (selected now (app_bk app)) as [t|] eqn:Hs.
  - destruct (create_outcome (env_app env (List.length done))) as [bc|e] eqn:Ho.
    + rewrite (do_backup_app_not_created env now done app rest file t bc Hs Ho
                 (backup_fails_outcome _ bc Hb Ho)).
      reflexivity.
    + rewrite (do_backup_app_raised env now done app rest file t e Hs Ho).
      reflexivity.
  - rewrite (do_backup_app_none env now done app rest file Hs). reflexivity.
Qed.

Lemma do_backup_loop_no_save env now todo :
  forall done file,
    (forall i, (List.length done <= i < List.length done + List.length todo)%nat ->
               backup_succeeds (env_app env i) = false) ->
    file_of (do_backup_loop env now done todo file) = file.
Proof.
  induction todo as [|app rest IH]; intros done file Hb.
  - reflexivity.
  - rewrite do_backup_loop_cons. cbv zeta.
    assert (Hf : file_of (do_backup_app env now done app rest file) = file)
      by (apply do_backup_app_no_save; apply Hb; simpl; lia).
    destruct (result_of (do_backup_app env now done app rest file)) as [app1|e];
      run_mk; [|exact Hf].
    rewrite IH; [exact Hf|].
    intros i Hi. apply Hb. rewrite length_app in Hi. simpl in *. lia.
Qed.

(** X11.  Progress is kept app by app: once the backup of an app has been
    created, uploaded, rotated and the configuration written, the file holds
    the list with that app advanced (and the earlier apps as their own
    iterations left them), and it still does at the end of the run when no
    later app gets a backup through, whether the run then completes or is
    ended by an exception. *)
Theorem saved_progress_survives_later_failures env file pre app rest t :
  let now := env_now env in
  env_json_load env file = Returns (pre ++ app :: rest)%list ->
  (forall i, (i < List.length pre)%nat -> no_uncaught (env_app env i) = true) ->
  selected now (app_bk app) = Some t ->
  backup_succeeds (env_app env (List.length pre)) = true ->
  or_save_fault (env_app env (List.length pre)) = None ->
  (forall i, (List.length pre < i <= List.length pre + List.length rest)%nat ->
             backup_succeeds (env_app env i) = false) ->
  exists pre1,
    Forall2 (only_bk_moved now) pre pre1
    /\ file_of (do_backup env file) =
       join (env_json_chunks env (pre1 ++ advance t now app :: rest)).
Proof.
  intros now Hload Hpre Hs Hb Hsave Hrest.
  rewrite (do_backup_loaded env file _ Hload). cbv zeta. run_mk. fold now.
  destruct (do_backup_loop_prefix env now pre [] (app :: rest) file)
    as [pre1 [evs1 [file1 [Hall E]]]].
  { intros i Hi. apply Hpre. simpl in Hi. lia. }
  exists pre1. split; [exact Hall|].
  rewrite E. run_mk. cbn [List.app].
  assert (Hlen : List.length pre1 = List.length pre)
    by (symmetry; apply (Forall2_length Hall)).
  rewrite do_backup_loop_cons. cbv zeta.
  destruct (backup_succeeds_outcome _ Hb) as [bc [Ho Ht]].
  rewrite <- Hlen in Ho, Hsave.
  assert (Hit : do_backup_app env now pre1 app rest file1 =
                (Returns (advance t now app),
                 events_of (do_backup_app env now pre1 app rest file1),
                 join (env_json_chunks env (pre1 ++ advance t now app :: rest)))).
  { rewrite (do_backup_app_created env now pre1 app rest file1 t bc Hs Ho Ht).
    cbv zeta. run_mk.
    destruct (rotate_and_save_saved env (env_app env (List.length pre1)) pre1
                (advance t now app) rest file1 Hsave) as [H1 H2].
    rewrite H1, H2, run_ops_save. reflexivity. }
  rewrite Hit. run_mk.
  apply do_backup_loop_no_save.
  intros i Hi. apply Hrest. rewrite length_app in Hi. simpl in Hi. lia.
Qed.

Lemma saved_progress_survives_later_failures_witness :
  let env := sample_env [jom; wiki]
               (fun i => match i with 0%nat => oracle_ok | _ => oracle_makedirs_fails end) in
  exists pre1,
    Forall2 (only_bk_moved june_2024) [] pre1
    /\ file_of (do_backup env "[]") =
       join (name_chunks (pre1 ++ advance yearly june_2024 jom :: [wiki])).
Proof.
  apply (saved_progress_survives_later_failures
           (sample_env [jom; wiki]
              (fun i => match i with 0%nat => oracle_ok | _ => oracle_makedirs_fails end))
           "[]" [] jom [wiki] yearly);
    try reflexivity.
  - intros i Hi. simpl in Hi. lia.
  - intros i Hi. simpl in Hi. destruct i as [|i]; [lia | reflexivity].
Defined.

(** ** Order of the steps of an iteration *)

Lemma rotate_and_save_events env o done app rest file :
  events_of (rotate_and_save env o done app true rest file) =
  ([EvLog INFO "starting rotate_backups to '{}'" [app_name (app_cfg app)];
    EvRotateBackups "local" (rot_local (app_rotate app))
      (include_list (app_rotate app)) (exclude_list (app_rotate app))
      (dry_run (app_rotate app)) (ionice (app_rotate app))
      (local_backup_dir (app_cfg app)) (or_rotate_local o);
    EvRotateBackups "remote" (rot_remote (app_rotate app))
      (include_list (app_rotate app)) (exclude_list (app_rotate app))
      (dry_run (app_rotate app)) (ionice (app_rotate app))
      (remote_backup_dir (app_cfg app)) (or_rotate_remote o);
    EvLog INFO "finish rotate_backups to '{}'" [app_name (app_cfg app)];
    EvLog INFO "starting save_last_backup_datetime to '{}'" [app_name (app_cfg app)];
    EvOpen CONFIG_FILE "w"]
   ++ match or_save_fault o with
      | None =>
          [EvLog INFO "finish save_last_backup_datetime to '{}': {}"
             [app_name (app_cfg app); strftime (or_save_time o)];
           EvLog INFO "end backups to '{}'" [app_name (app_cfg app)]]
      | Some _ => []
      end)%list.
Proof.
  unfold_tail. simpl.
  destruct (or_save_fault o) as [[k e]|]; reflexivity.
Qed.

Lemma split_after_clean (a b pre post : list Event) (x : Event) :
  (a ++ b = pre ++ x :: post)%list -> ~ In x a ->
  exists pre', pre = (a ++ pre')%list /\ b = (pre' ++ x :: post)%list.
Proof.
  revert pre. induction a as [|y a IH]; intros pre H Hn.
  - exists pre. split; [reflexivity | exact H].
  - destruct pre as [|z pre].
    + simpl in H. injection H as Hy _. exfalso. apply Hn. left. exact Hy.
    + simpl in H. injection H as Hy H. subst z.
      destruct (IH pre H) as [pre' [Hp Hb]]; [intros Hin; apply Hn; now right|].
      exists pre'. split; [now rewrite Hp | exact Hb].
Qed.

Lemma config_write_in_filter (evs : list Event) (path : string) :
  In (EvOpen path "w") evs -> config_writes evs <> [].
Proof.
  intros Hin Hf.
  assert (H : In (EvOpen path "w") (config_writes evs))
    by (apply filter_In; split; [exact Hin | reflexivity]).
  rewrite Hf in H. destruct H.
Qed.

(** X12.  Within an iteration the configuration file is opened for writing
    at most once, and only after the backup of the tier that was due has been
    created and uploaded with success and both rotations, first the local
    then the remote one, have been run; nothing is rotated afterwards. *)
Theorem config_written_only_after_rotation env now done app rest file pre path post :
  let o := env_app env (List.length done) in
  events_of (do_backup_app env now done app rest file) =
    (pre ++ EvOpen path "w" :: post)%list ->
  path = CONFIG_FILE
  /\ backup_succeeds o = true
  /\ (exists t, selected now (app_bk app) = Some t /\ attempts pre = [tier_name t])
  /\ (exists a1,
        rotations pre =
        [EvRotateBackups "local" (rot_local (app_rotate a1))
           (include_list (app_rotate a1)) (exclude_list (app_rotate a1))
           (dry_run (app_rotate a1)) (ionice (app_rotate a1))
           (local_backup_dir (app_cfg a1)) (or_rotate_local o);
         EvRotateBackups "remote" (rot_remote (app_rotate a1))
           (include_list (app_rotate a1)) (exclude_list (app_rotate a1))
           (dry_run (app_rotate a1)) (ionice (app_rotate a1))
           (remote_backup_dir (app_cfg a1)) (or_rotate_remote o)]
        /\ only_bk_moved now app a1)
  /\ rotations post = []
  /\ config_writes pre = [] /\ config_writes post = [].
Proof.
  intros o Hev.
  assert (Hw : config_writes (events_of (do_backup_app env now done app rest file)) <> []).
  { apply (config_write_in_filter _ path). rewrite Hev.
    apply in_or_app. right. now left. }
  destruct (selected now (app_bk app)) as [t|] eqn:Hs.
  2:{ rewrite (do_backup_app_none env now done app rest file Hs) in Hw.
      exfalso. apply Hw. reflexivity. }
  destruct (create_outcome o) as [bc|e] eqn:Ho.
  2:{ rewrite (do_backup_app_raised env now done app rest file t e Hs Ho) in Hw.
      rewrite events_of_mk in Hw. exfalso. apply Hw.
      apply create_full_backup_config_writes. }
  destruct (truthy bc) eqn:Ht.
  2:{ rewrite (do_backup_app_not_created env now done app rest file t bc Hs Ho Ht) in Hw.
      rewrite events_of_mk, config_writes_app, create_full_backup_config_writes in Hw.
      exfalso. apply Hw. reflexivity. }
  rewrite (do_backup_app_created env now done app rest file t bc Hs Ho Ht) in Hev.
  cbv zeta in Hev. rewrite events_of_mk in Hev. fold o in Hev.
  set (cev := events_of (create_full_backup env o app (tier_name t) file)) in *.
  assert (Hclean : ~ In (EvOpen path "w") cev).
  { intros Hin. apply (config_write_in_filter _ _ Hin).
    apply create_full_backup_config_writes. }
  destruct (split_after_clean _ _ _ _ _ Hev Hclean) as [pre' [Hp Hb]].
  rewrite rotate_and_save_events in Hb.
  assert (Hsplit :
    pre' = [EvLog INFO "starting rotate_backups to '{}'"
              [app_name (app_cfg (advance t now app))];
            EvRotateBackups "local" (rot_local (app_rotate (advance t now app)))
              (include_list (app_rotate (advance t now app)))
              (exclude_list (app_rotate (advance t now app)))
              (dry_run (app_rotate (advance t now app)))
              (ionice (app_rotate (advance t now app)))
              (local_backup_dir (app_cfg (advance t now app))) (or_rotate_local o);
            EvRotateBackups "remote" (rot_remote (app_rotate (advance t now app)))
              (include_list (app_rotate (advance t now app)))
              (exclude_list (app_rotate (advance t now app)))
              (dry_run (app_rotate (advance t now app)))
              (ionice (app_rotate (advance t now app)))
              (remote_backup_dir (app_cfg (advance t now app))) (or_rotate_remote o);
            EvLog INFO "finish rotate_backups to '{}'"
              [app_name (app_cfg (advance t now app))];
            EvLog INFO "starting save_last_backup_datetime to '{}'"
              [app_name (app_cfg (advance t now app))]]
    /\ path = CONFIG_FILE
    /\ rotations post = [] /\ config_writes post = []).
  { clear - Hb.
    destruct pre' as [|e1 pre']; [discriminate Hb|].
    destruct pre' as [|e2 pre']; [discriminate Hb|].
    destruct pre' as [|e3 pre']; [discriminate Hb|].
    destruct pre' as [|e4 pre']; [discriminate Hb|].
    destruct pre' as [|e5 pre']; [discriminate Hb|].
    destruct pre' as [|e6 pre'].
    - simpl in Hb. injection Hb as <- <- <- <- <- Hpath Hpost.
      split; [reflexivity|]. split; [now symmetry|].
      rewrite <- Hpost. destruct (or_save_fault o); repeat split.
    - exfalso. simpl in Hb. injection Hb as _ _ _ _ _ _ Hb.
      destruct (or_save_fault o).
      + destruct pre'; discriminate Hb.
      + destruct pre' as [|e7 pre']; [discriminate Hb|].
        destruct pre' as [|e8 pre']; [discriminate Hb|].
        destruct pre'; discriminate Hb. }
  destruct Hsplit as [Hpre' [Hpath [Hrp Hcp]]].
  split; [exact Hpath|]. split.
  { destruct (backup_succeeds o) eqn:Hb'; [reflexivity|].
    rewrite (backup_fails_outcome o bc Hb' Ho) in Ht. discriminate. }
  split.
  { exists t. split; [reflexivity|]. rewrite Hp, attempts_app. unfold cev.
    rewrite create_full_backup_attempts, Hpre'. reflexivity. }
  split.
  { exists (advance t now app). split.
    - rewrite Hp, rotations_app. unfold cev.
      rewrite create_full_backup_rotations, Hpre'. reflexivity.
    - now apply advance_only_bk_moved. }
  split; [exact Hrp|]. split; [|exact Hcp].
  rewrite Hp, config_writes_app. unfold cev.
  rewrite create_full_backup_config_writes, Hpre'. reflexivity.
Qed.

Lemma config_written_only_after_rotation_witness :
  let env := sample_env [jom] (fun _ => oracle_ok) in
  let evs := events_of (do_backup_app env june_2024 [] jom [] "[]") in
  let pre := firstn 13 evs in
  let post := skipn 14 evs in
  "../config/mysql_config.json" = CONFIG_FILE
  /\ backup_succeeds oracle_ok = true
  /\ (exists t, selected june_2024 (app_bk jom) = Some t /\ attempts pre = [tier_name t])
  /\ (exists a1,
        rotations pre =
        [EvRotateBackups "local" (rot_local (app_rotate a1))
           (include_list (app_rotate a1)) (exclude_list (app_rotate a1))
           (dry_run (app_rotate a1)) (ionice (app_rotate a1))
           (local_backup_dir (app_cfg a1)) (or_rotate_local oracle_ok);
         EvRotateBackups "remote" (rot_remote (app_rotate a1))
           (include_list (app_rotate a1)) (exclude_list (app_rotate a1))
           (dry_run (app_rotate a1)) (ionice (app_rotate a1))
           (remote_backup_dir (app_cfg a1)) (or_rotate_remote oracle_ok)]
        /\ only_bk_moved june_2024 jom a1)
  /\ rotations post = []
  /\ config_writes pre = [] /\ config_writes post = [].
Proof.
  apply (config_written_only_after_rotation
           (sample_env [jom] (fun _ => oracle_ok)) june_2024 [] jom [] "[]"
           (firstn 13 (events_of (do_backup_app (sample_env [jom] (fun _ => oracle_ok))
                                    june_2024 [] jom [] "[]")))
           "../config/mysql_config.json"
           (skipn 14 (events_of (do_backup_app (sample_env [jom] (fun _ => oracle_ok))
                                   june_2024 [] jom [] "[]")))).
  reflexivity.
Defined.

(** ** [create_incremental_backup] *)

(** X13.  The incremental path creates nothing: it runs no command and
    makes no directory, yet asks for the upload of the backup file it has
    named, for the app's credentials and folder; whatever the upload does, it
    raises nothing, writes its closing record and returns [None], and it
    leaves the configuration file alone. *)
Theorem incremental_backup_only_uploads o app backup_type file :
  let run := create_incremental_backup o app backup_type file in
  let backup_file := backup_file_of app (strftime (or_create_time o)) backup_type in
  result_of run = Returns PyNone
  /\ file_of run = file
  /\ commands (events_of run) = []
  /\ filter is_makedirs (events_of run) = []
  /\ uploads (events_of run) =
     [EvUploadFile (google_credentials_name (app_cfg app))
        (google_authorized (app_cfg app)) (remote_backup_dir (app_cfg app))
        backup_file]
  /\ In (EvLog INFO "finish incremental backup_{} to '{}:{}'"
           [backup_type; app_name (app_cfg app); backup_file]) (events_of run).
Proof.
  unfold create_incremental_backup, upload_backup, upload_file, of_outcome,
    try_except, bind, log, emit, ret, raise, result_of, events_of, file_of.
  destruct (or_upload_file o) as [u|e]; simpl.
  - destruct (truthy u); simpl; repeat split; auto 8.
  - repeat split; auto 8.
Qed.

(** ** Names and creation times *)

Lemma ascii_compare_digit (a b : nat) :
  Ascii.compare (digit a) (digit b) = Nat.compare (a mod 10) (b mod 10).
Proof.
  pose proof (Nat.mod_upper_bound a 10 ltac:(lia)) as Ha.
  pose proof (Nat.mod_upper_bound b 10 ltac:(lia)) as Hb.
  unfold Ascii.compare, digit, ascii_of_nat.
  rewrite !N_ascii_embedding by lia.
  destruct (Nat.compare_spec (a mod 10) (b mod 10)) as [H|H|H].
  - rewrite H. apply N.compare_refl.
  - apply N.compare_lt_iff. lia.
  - apply N.compare_gt_iff. lia.
Qed.

Lemma compare_cons_digit (a b : nat) (s1 s2 : string) :
  String.compare (String (digit a) s1) (String (digit b) s2) =
  lex (Nat.compare (a mod 10) (b mod 10)) (String.compare s1 s2).
Proof.
  cbn [String.compare]. rewrite ascii_compare_digit.
  destruct (Nat.compare (a mod 10) (b mod 10)); reflexivity.
Qed.

Lemma compare_cons_same (c : ascii) (s1 s2 : string) :
  String.compare (String c s1) (String c s2) = String.compare s1 s2.
Proof.
  cbn [String.compare]. unfold Ascii.compare. now rewrite N.compare_refl.
Qed.

Lemma compare_refl_str (s : string) : String.compare s s = Eq.
Proof. induction s as [|c s IH]; [reflexivity|]. now rewrite compare_cons_same. Qed.

Lemma compare_prefix (p s1 s2 : string) :
  String.compare (p ++ s1) (p ++ s2) = String.compare s1 s2.
Proof.
  induction p as [|c p IH]; [reflexivity|].
  cbn [append]. now rewrite compare_cons_same.
Qed.

Ltac compare_cases :=
  repeat match goal with
  | |- context [Nat.compare ?x ?y] => destruct (Nat.compare_spec x y)
  end;
  cbn [lex]; try reflexivity; exfalso; lia.

Lemma compare_pad2 (n m : nat) (s1 s2 : string) :
  (n <= 99)%nat -> (m <= 99)%nat ->
  String.compare (pad2 n ++ s1) (pad2 m ++ s2) =
  lex (Nat.compare n m) (String.compare s1 s2).
Proof.
  intros Hn Hm.
  pose proof (Nat.div_mod_eq n 10) as En.
  pose proof (Nat.div_mod_eq m 10) as Em.
  pose proof (Nat.mod_upper_bound n 10 ltac:(lia)) as Bn.
  pose proof (Nat.mod_upper_bound m 10 ltac:(lia)) as Bm.
  assert (Dn : (n / 10 < 10)%nat) by (apply Nat.Div0.div_lt_upper_bound; lia).
  assert (Dm : (m / 10 < 10)%nat) by (apply Nat.Div0.div_lt_upper_bound; lia).
  unfold pad2. cbn [append]. rewrite !compare_cons_digit.
  rewrite (Nat.mod_small (n / 10) 10) by exact Dn.
  rewrite (Nat.mod_small (m / 10) 10) by exact Dm.
  generalize (String.compare s1 s2). intros c.
  generalize dependent (n / 10)%nat. generalize dependent (n mod 10)%nat.
  generalize dependent (m / 10)%nat. generalize dependent (m mod 10)%nat.
  intros. compare_cases.
Qed.

Lemma compare_dec4 (n m : nat) (s1 s2 : string) :
  (n < 10 * 1000)%nat -> (m < 10 * 1000)%nat ->
  String.compare (dec4 n ++ s1) (dec4 m ++ s2) =
  lex (Nat.compare n m) (String.compare s1 s2).
Proof.
  intros Hn Hm.
  destruct (decimal_digits n Hn) as [En Dn].
  destruct (decimal_digits m Hm) as [Em Dm].
  pose proof (Nat.mod_upper_bound (n / 100) 10 ltac:(lia)) as Bn2.
  pose proof (Nat.mod_upper_bound (n / 10) 10 ltac:(lia)) as Bn1.
  pose proof (Nat.mod_upper_bound n 10 ltac:(lia)) as Bn0.
  pose proof (Nat.mod_upper_bound (m / 100) 10 ltac:(lia)) as Bm2.
  pose proof (Nat.mod_upper_bound (m / 10) 10 ltac:(lia)) as Bm1.
  pose proof (Nat.mod_upper_bound m 10 ltac:(lia)) as Bm0.
  unfold dec4, pad2. cbn [append]. rewrite !compare_cons_digit.
  rewrite (Nat.mod_small (n / 1000) 10) by exact Dn.
  rewrite (Nat.mod_small (m / 1000) 10) by exact Dm.
  generalize (String.compare s1 s2). intros c.
  generalize dependent (n / 1000)%nat. generalize dependent ((n / 100) mod 10)%nat.
  generalize dependent ((n / 10) mod 10)%nat. generalize dependent (n mod 10)%nat.
  generalize dependent (m / 1000)%nat. generalize dependent ((m / 100) mod 10)%nat.
  generalize dependent ((m / 10) mod 10)%nat. generalize dependent (m mod 10)%nat.
  intros. compare_cases.
Qed.

(** X14.  The names of the backups of one app and one tier sort like their
    creation times: comparing two backup paths character by character gives
    the order of the two creation times, taken to the minute, for all times
    whose year has four digits. *)
Theorem names_sort_by_creation_time app backup_type t1 t2 :
  valid_time t1 -> valid_time t2 ->
  String.compare (backup_file_of app (strftime t1) backup_type)
                 (backup_file_of app (strftime t2) backup_type) =
  time_compare t1 t2.
Proof.
  intros Hv1 Hv2. unfold backup_file_of.
  rewrite (strftime_explicit t1 Hv1), (strftime_explicit t2 Hv2).
  destruct Hv1 as [Hy1 [Hm1 [Hd1 [Hh1 Hi1]]]].
  destruct Hv2 as [Hy2 [Hm2 [Hd2 [Hh2 Hi2]]]].
  rewrite !compare_prefix. rewrite !append_assoc_str.
  rewrite compare_dec4 by lia. rewrite compare_prefix.
  rewrite compare_pad2 by lia. rewrite compare_prefix.
  rewrite compare_pad2 by lia. rewrite compare_prefix.
  rewrite compare_pad2 by lia. rewrite compare_prefix.
  rewrite compare_pad2 by lia. rewrite compare_refl_str.
  unfold time_compare.
  destruct (Nat.compare (tm_min t1) (tm_min t2)); reflexivity.
Qed.

Lemma names_sort_by_creation_time_witness :
  String.compare (backup_file_of jom (strftime t_0917) "daily")
                 (backup_file_of jom (strftime t_0918) "daily") =
  time_compare t_0917 t_0918.
Proof.
  apply (names_sort_by_creation_time jom "daily" t_0917 t_0918);
    unfold valid_time; simpl; lia.
Defined.

Lemma append_inj_l (p a b : string) : (p ++ a = p ++ b)%string -> a = b.
Proof.
  induction p as [|c p IH]; simpl; [auto|].
  intros H. injection H as H. auto.
Qed.

Lemma append_inj_length (a b x y : string) :
  String.length a = String.length b ->
  (a ++ x = b ++ y)%string -> a = b /\ x = y.
Proof.
  revert b. induction a as [|c a IH]; intros [|d b] Hl H; try discriminate.
  - now split.
  - simpl in Hl, H. injection Hl as Hl. injection H as Hc H.
    destruct (IH b Hl H) as [Ha Hx]. subst. now split.
Qed.

Lemma strftime_length (t : StructTime) :
  valid_time t -> String.length (strftime t) = 16%nat.
Proof. intros Hv. rewrite (strftime_explicit t Hv). reflexivity. Qed.

(** X15.  Two full backups of one app get the same path only if they are of
    the same tier and were created in the same minute: the path determines
    the tier and the creation time to the minute. *)
Theorem backup_path_determines_tier_and_minute app t1 t2 ty1 ty2 :
  valid_time t1 -> valid_time t2 ->
  backup_file_of app (strftime t1) (tier_name ty1) =
  backup_file_of app (strftime t2) (tier_name ty2) ->
  t1 = t2 /\ ty1 = ty2.
Proof.
  intros Hv1 Hv2 H. unfold backup_file_of in H.
  do 3 apply append_inj_l in H.
  apply append_inj_length in H;
    [|now rewrite (strftime_length t1 Hv1), (strftime_length t2 Hv2)].
  destruct H as [Hs Ht]. split.
  - assert (E : read_stamp (strftime t1) = read_stamp (strftime t2)) by now rewrite Hs.
    rewrite (read_stamp_strftime t1 Hv1), (read_stamp_strftime t2 Hv2) in E.
    now injection E.
  - destruct ty1, ty2; try reflexivity; discriminate Ht.
Qed.

Lemma backup_path_determines_tier_and_minute_witness :
  t_0917 = t_0917 /\ daily = daily.
Proof.
  apply (backup_path_determines_tier_and_minute jom t_0917 t_0917 daily daily);
    [unfold valid_time; simpl; lia | unfold valid_time; simpl; lia | reflexivity].
Defined.

(** ** Reported success and the timestamps *)

(** X16.  [create_full_backup] returns a true value exactly when the
    directory could be made, the dump returned, the compression reported
    success and the upload returned a true value; in every other case in
    which it returns at all, what it returns is false. *)
Theorem create_full_backup_true_iff_all_succeed env o app backup_type file :
  (exists v, result_of (create_full_backup env o app backup_type file) = Returns v
             /\ truthy v = true)
  <-> backup_succeeds o = true.
Proof.
  rewrite create_full_backup_result. split.
  - intros [v [Hr Ht]].
    destruct (backup_succeeds o) eqn:Hb; [reflexivity|].
    rewrite (backup_fails_outcome o v Hb Hr) in Ht. discriminate.
  - apply backup_succeeds_outcome.
Qed.

(** X17.  A backup that is reported created advances the timestamps of its
    own tier and of the tiers below it and no other: [last_day] always,
    [last_week] for a weekly, monthly or yearly backup, [last_month] for a
    monthly or yearly one, [last_year] for a yearly one only; the other
    sections of the app are untouched and [rotate] is set. *)
Theorem created_backup_advances_units_of_its_tier env o now app file t bc :
  tier_due t now (app_bk app) = true ->
  (forall t', (rank t' < rank t)%nat -> tier_due t' now (app_bk app) = false) ->
  result_of (create_full_backup env o app (tier_name t) file) = Returns bc ->
  truthy bc = true ->
  exists app1,
    result_of (select_and_create env o now app file) = Returns (app1, true)
    /\ app_cfg app1 = app_cfg app
    /\ app_rotate app1 = app_rotate app
    /\ app_custom app1 = app_custom app
    /\ last_day (app_bk app1) = current_day now
    /\ last_week (app_bk app1) =
       (if (rank t <=? 2)%nat then current_week now else last_week (app_bk app))
    /\ last_month (app_bk app1) =
       (if (rank t <=? 1)%nat then current_month now else last_month (app_bk app))
    /\ last_year (app_bk app1) =
       (if (rank t <=? 0)%nat then current_year now else last_year (app_bk app)).
Proof.
  intros Hd Hh Hr Ht.
  assert (Hs : selected now (app_bk app) = Some t) by (apply selected_some; auto).
  rewrite create_full_backup_result in Hr.
  exists (advance t now app). split.
  - rewrite (select_and_create_due env o now app file t Hs), Hr, Ht. reflexivity.
  - destruct t; repeat split.
Qed.

Lemma created_backup_advances_units_of_its_tier_witness :
  exists app1,
    result_of (select_and_create (sample_env [wiki] (fun _ => oracle_ok)) oracle_ok
                 june_2024 wiki "[]") = Returns (app1, true)
    /\ app_cfg app1 = app_cfg wiki
    /\ app_rotate app1 = app_rotate wiki
    /\ app_custom app1 = app_custom wiki
    /\ last_day (app_bk app1) = 15
    /\ last_week (app_bk app1) =
       (if (rank daily <=? 2)%nat then 24 else last_week (app_bk wiki))
    /\ last_month (app_bk app1) =
       (if (rank daily <=? 1)%nat then 6 else last_month (app_bk wiki))
    /\ last_year (app_bk app1) =
       (if (rank daily <=? 0)%nat then 2024 else last_year (app_bk wiki)).
Proof.
  apply (created_backup_advances_units_of_its_tier
           (sample_env [wiki] (fun _ => oracle_ok)) oracle_ok june_2024 wiki "[]"
           daily (PyBool true));
    try reflexivity.
  intros [] Hr; simpl in Hr; try lia; reflexivity.
Defined.
